(** * HollaEx MCP server: tool registry and transport adapter

    A shallow embedding of the two versions of [mcp-server.js] kept in the
    repository: the two-tool server ([src/src/mcp-server.js], module
    [Simple]) and the full trading server (module [Trading]).

    JavaScript values are an inductive type, the asynchronous handlers are
    programs in a small trace-and-exception monad, and the exchange client
    ([hollaex-node-lib]) is an oracle the handlers call. *)

From Stdlib Require Import String Ascii List Bool ZArith QArith Lia.
From Stdlib Require Import DecimalString.
Import ListNotations.
Open Scope string_scope.
Open Scope list_scope.

(** ** JavaScript values *)

(** The values that travel through the server: JSON values plus
    [undefined].  A number is a rational: every finite double is one, and
    neither JSON nor the number schema admits NaN or an infinity.  An
    object is the list of its own properties in insertion order. *)
#[local] Unset Elimination Schemes.
Inductive JSValue : Type :=
| JUndefined
| JNull
| JBool (b : bool)
| JNum (q : Q)
| JStr (s : string)
| JArr (items : list JSValue)
| JObj (props : list (string * JSValue)).
#[local] Set Elimination Schemes.

Definition num (z : Z) : JSValue := JNum (inject_Z z).

Fixpoint assoc {A : Type} (k : string) (l : list (string * A)) : option A :=
  match l with
  | [] => None
  | (k', v) :: rest => if String.eqb k k' then Some v else assoc k rest
  end.

Definition has_key {A : Type} (k : string) (l : list (string * A)) : bool :=
  match assoc k l with Some _ => true | None => false end.

(** [v[k]] where [v] is not null or undefined; destructuring
    [({ k }) => ...] reads its argument this way.  The keys read by the
    server are never inherited ones, so a value that is not an object has
    none of them. *)
Definition prop (k : string) (v : JSValue) : JSValue :=
  match v with
  | JObj props => match assoc k props with Some x => x | None => JUndefined end
  | _ => JUndefined
  end.

(** [v === undefined || v === null] *)
Definition nullish (v : JSValue) : bool :=
  match v with JUndefined | JNull => true | _ => false end.

(** ToBoolean: [!v] is [negb (truthy v)]. *)
Definition truthy (v : JSValue) : bool :=
  match v with
  | JUndefined | JNull => false
  | JBool b => b
  | JNum q => negb (Qeq_bool q 0)
  | JStr s => negb (String.eqb s "")
  | JArr _ | JObj _ => true
  end.

(** [v === 'text'] *)
Definition is_string (text : string) (v : JSValue) : bool :=
  match v with JStr s => String.eqb s text | _ => false end.

(** [a ?? b] *)
Definition coalesce (a b : JSValue) : JSValue := if nullish a then b else a.

(** [Object.keys(o).length ? o : undefined] for an object literal [o]. *)
Definition nonempty_or_undefined (props : list (string * JSValue)) : JSValue :=
  match props with [] => JUndefined | _ => JObj props end.

(** [s] between double quotes. *)
Definition quoted (s : string) : string :=
  String (ascii_of_nat 34) s ++ String (ascii_of_nat 34) "".

Fixpoint join (sep : string) (parts : list string) : string :=
  match parts with
  | [] => ""
  | [p] => p
  | p :: rest => p ++ sep ++ join sep rest
  end.

Section ToString.

(** [Number.prototype.toString], a built-in of the JavaScript runtime. *)
Variable Number_toString : Q -> string.

(** The string a template literal [`${v}`] puts in place of [v]. *)
Fixpoint to_string (v : JSValue) : string :=
  match v with
  | JUndefined => "undefined"
  | JNull => "null"
  | JBool true => "true"
  | JBool false => "false"
  | JNum q => Number_toString q
  | JStr s => s
  | JArr items =>
      join "," (map (fun x => if nullish x then "" else to_string x) items)
  | JObj _ => "[object Object]"
  end.

End ToString.

(** ** Schemas

    The schema-validation facility ([zod]) is an external collaborator.  A
    schema is a declarative value, and [parse] interprets it, returning the
    parsed data or the list of violations. *)

Inductive NumberCheck : Type :=
| check_int
| check_positive
| check_max (bound : Q).

Inductive UnknownKeys : Type := strip_keys | passthrough_keys.

#[local] Unset Elimination Schemes.
Inductive Schema : Type :=
| ZString
| ZNumber (checks : list NumberCheck)
| ZBoolean
| ZUnknown
| ZEnum (values : list string)
| ZObject (shape : list (string * Schema)) (unknownKeys : UnknownKeys)
    (rest : option Schema)
| ZArray (element : Schema) (minLength : nat)
| ZRecord (valueType : Schema)
| ZUnion (options : list Schema)
| ZOptional (inner : Schema)
| ZNullable (inner : Schema)
| ZDefault (inner : Schema) (value : JSValue)
| ZDescribe (inner : Schema) (description : string).
#[local] Set Elimination Schemes.

(** The schema constructors and methods of [zod] that the server uses;
    [s |> m] is the method call [s.m()]. *)
Module z.
Definition string : Schema := ZString.
Definition number : Schema := ZNumber [].
Definition boolean : Schema := ZBoolean.
Definition unknown : Schema := ZUnknown.
Definition enum (values : list String.string) : Schema := ZEnum values.
Definition object (shape : list (String.string * Schema)) : Schema :=
  ZObject shape strip_keys None.
Definition array (element : Schema) : Schema := ZArray element 0.
Definition record (keyType valueType : Schema) : Schema := ZRecord valueType.
Definition union (options : list Schema) : Schema := ZUnion options.
End z.

Definition add_check (c : NumberCheck) (s : Schema) : Schema :=
  match s with
  | ZNumber checks => ZNumber (checks ++ [c])
  | _ => s
  end.

Definition int : Schema -> Schema := add_check check_int.
Definition positive : Schema -> Schema := add_check check_positive.
Definition max (bound : Z) : Schema -> Schema :=
  add_check (check_max (inject_Z bound)).
Definition optional : Schema -> Schema := ZOptional.
Definition nullable : Schema -> Schema := ZNullable.
Definition default (value : JSValue) (s : Schema) : Schema := ZDefault s value.
Definition describe (description : string) (s : Schema) : Schema :=
  ZDescribe s description.
Definition passthrough (s : Schema) : Schema :=
  match s with
  | ZObject shape _ rest => ZObject shape passthrough_keys rest
  | _ => s
  end.
Definition catchall (rest : Schema) (s : Schema) : Schema :=
  match s with
  | ZObject shape unknownKeys _ => ZObject shape unknownKeys (Some rest)
  | _ => s
  end.
Definition nonempty (s : Schema) : Schema :=
  match s with
  | ZArray element _ => ZArray element 1
  | _ => s
  end.
Definition or (other : Schema) (s : Schema) : Schema := ZUnion [s; other].

Notation "s |> m" := (m s) (at level 45, left associativity, only parsing).

(** One violation: what is wrong and where. *)
Inductive IssueCode : Type :=
| required
| invalid_type (expected : string)
| invalid_enum_value (allowed : list string)
| not_integer
| too_small (exclusiveMinimum : Q)
| too_big (maximum : Q)
| too_short (minLength : nat)
| invalid_union.

Record Issue : Type := { code : IssueCode; path : list string }.

Definition type_issue (expected : string) (path : list string) (v : JSValue)
  : list Issue :=
  match v with
  | JUndefined => [ {| code := required; path := path |} ]
  | _ => [ {| code := invalid_type expected; path := path |} ]
  end.

(** [Number.isInteger] *)
Definition is_integer (q : Q) : bool :=
  (Qnum q mod Zpos (Qden q) =? 0)%Z.

Definition check_number (path : list string) (q : Q) (c : NumberCheck)
  : list Issue :=
  match c with
  | check_int =>
      if is_integer q then [] else [ {| code := not_integer; path := path |} ]
  | check_positive =>
      if Qle_bool q 0 then [ {| code := too_small 0; path := path |} ] else []
  | check_max bound =>
      if Qle_bool q bound then []
      else [ {| code := too_big bound; path := path |} ]
  end.

Definition index_key (i : nat) : string :=
  NilEmpty.string_of_uint (Nat.to_uint i).

Definition is_undefined (v : JSValue) : bool :=
  match v with JUndefined => true | _ => false end.

Definition mem (k : string) (l : list string) : bool :=
  existsb (String.eqb k) l.

(** Modelled from the spec: the schema-validation facility ([zod], not part
    of the repository's sources).  The parameter mapping "must satisfy the
    tool's declared input schema (required fields present, types correct,
    enumerated values within the allowed set, numeric fields within declared
    constraints such as positivity or maximum)"; the validation routine
    interprets the schema and returns "a structured list of violations".
    On success it returns the parsed data: defaults filled in, undeclared
    keys of an object dropped unless the schema passes them through or
    checks them against a catch-all schema. *)
Fixpoint parse (s : Schema) (path : list string) (v : JSValue) {struct s}
  : list Issue + JSValue :=
  match s with
  | ZString =>
      match v with JStr _ => inr v | _ => inl (type_issue "string" path v) end
  | ZNumber checks =>
      match v with
      | JNum q =>
          match flat_map (check_number path q) checks with
          | [] => inr v
          | issues => inl issues
          end
      | _ => inl (type_issue "number" path v)
      end
  | ZBoolean =>
      match v with JBool _ => inr v | _ => inl (type_issue "boolean" path v) end
  | ZUnknown => inr v
  | ZEnum values =>
      match v with
      | JStr x =>
          if mem x values then inr v
          else inl [ {| code := invalid_enum_value values; path := path |} ]
      | JUndefined => inl [ {| code := required; path := path |} ]
      | _ => inl [ {| code := invalid_enum_value values; path := path |} ]
      end
  | ZObject shape unknownKeys rest =>
      match v with
      | JObj props =>
          let declared :=
            (fix fields (sh : list (string * Schema))
               : list Issue * list (string * JSValue) :=
               match sh with
               | [] => ([], [])
               | (k, field) :: sh' =>
                   let '(issues, out) := fields sh' in
                   match parse field (path ++ [k]) (prop k v) with
                   | inl found => (found ++ issues, out)
                   | inr x =>
                       (issues,
                        if has_key k props || negb (is_undefined x)
                        then (k, x) :: out else out)
                   end
               end) shape in
          let undeclared :=
            filter (fun kv => negb (has_key (fst kv) shape)) props in
          let extra : list Issue * list (string * JSValue) :=
            match rest with
            | Some r =>
                (fix others (ps : list (string * JSValue))
                   : list Issue * list (string * JSValue) :=
                   match ps with
                   | [] => ([], [])
                   | (k, x) :: ps' =>
                       let '(issues, out) := others ps' in
                       match parse r (path ++ [k]) x with
                       | inl found => (found ++ issues, out)
                       | inr x' => (issues, (k, x') :: out)
                       end
                   end) undeclared
            | None =>
                match unknownKeys with
                | strip_keys => ([], [])
                | passthrough_keys => ([], undeclared)
                end
            end in
          match fst declared ++ fst extra with
          | [] => inr (JObj (snd declared ++ snd extra))
          | issues => inl issues
          end
      | _ => inl (type_issue "object" path v)
      end
  | ZArray element minLength =>
      match v with
      | JArr items =>
          let checked :=
            (fix elements (i : nat) (xs : list JSValue)
               : list Issue * list JSValue :=
               match xs with
               | [] => ([], [])
               | x :: xs' =>
                   let '(issues, out) := elements (S i) xs' in
                   match parse element (path ++ [index_key i]) x with
                   | inl found => (found ++ issues, out)
                   | inr x' => (issues, x' :: out)
                   end
               end) 0%nat items in
          let short :=
            if (length items <? minLength)%nat
            then [ {| code := too_short minLength; path := path |} ] else [] in
          match short ++ fst checked with
          | [] => inr (JArr (snd checked))
          | issues => inl issues
          end
      | _ => inl (type_issue "array" path v)
      end
  | ZRecord valueType =>
      match v with
      | JObj props =>
          let checked :=
            (fix entries (ps : list (string * JSValue))
               : list Issue * list (string * JSValue) :=
               match ps with
               | [] => ([], [])
               | (k, x) :: ps' =>
                   let '(issues, out) := entries ps' in
                   match parse valueType (path ++ [k]) x with
                   | inl found => (found ++ issues, out)
                   | inr x' => (issues, (k, x') :: out)
                   end
               end) props in
          match fst checked with
          | [] => inr (JObj (snd checked))
          | issues => inl issues
          end
      | _ => inl (type_issue "object" path v)
      end
  | ZUnion options =>
      (fix first (os : list Schema) : list Issue + JSValue :=
         match os with
         | [] => inl [ {| code := invalid_union; path := path |} ]
         | o :: os' =>
             match parse o path v with
             | inr x => inr x
             | inl _ => first os'
             end
         end) options
  | ZOptional inner =>
      match v with JUndefined => inr JUndefined | _ => parse inner path v end
  | ZNullable inner =>
      match v with JNull => inr JNull | _ => parse inner path v end
  | ZDefault inner value =>
      match v with JUndefined => inr value | _ => parse inner path v end
  | ZDescribe inner _ => parse inner path v
  end.

(** [schema.safeParse(v)] *)
Definition safeParse (s : Schema) (v : JSValue) : list Issue + JSValue :=
  parse s [] v.

(** ** Failures, effects and the handler monad *)

(** The spec's failure taxonomy. *)
Inductive ErrorCode : Type :=
| InvalidInput
| MissingCredentials
| ToolNotFound
| UpstreamError
| InternalError.

(** A thrown [Error].  The source throws plain [Error] objects; [kind]
    records the name the taxonomy gives to the place that throws. *)
Record Exception : Type := { kind : ErrorCode; message : string }.

(** The options object passed to [new hollaex({...})]: the module-level
    constants as they are; [None] in [apiExpiresAfter] is NaN. *)
Record ClientOptions : Type := {
  apiURL : string;
  wsURL : string;
  apiKey : option string;
  apiSecret : option string;
  apiExpiresAfter : option Q
}.

(** What a handler does besides returning: lines on the diagnostic stream
    and the use it makes of the exchange client. *)
Inductive Event : Type :=
| console_error (text : string) (err : option Exception)
| new_hollaex (options : ClientOptions)
| client_call (method : string) (args : list JSValue).

(** The events that touch the delegate. *)
Definition is_delegate_event (e : Event) : bool :=
  match e with
  | console_error _ _ => false
  | new_hollaex _ | client_call _ _ => true
  end.

Definition delegate_events (trace : list Event) : list Event :=
  filter is_delegate_event trace.

Definition is_call (method : string) (e : Event) : bool :=
  match e with
  | client_call m _ => String.eqb m method
  | _ => false
  end.

(** A computation that emits events and then returns or throws. *)
Definition M (A : Type) : Type := (list Event * (Exception + A))%type.

Definition ret {A : Type} (a : A) : M A := ([], inr a).

Definition bind {A B : Type} (m : M A) (k : A -> M B) : M B :=
  match m with
  | (t, inl e) => (t, inl e)
  | (t, inr a) => let '(t', r) := k a in (t ++ t', r)
  end.

Definition throw {A : Type} (e : Exception) : M A := ([], inl e).

Definition emit (e : Event) : M unit := ([e], inr tt).

(** [try { body } catch (err) { handler }] *)
Definition try_catch {A : Type} (body : M A) (handler : Exception -> M A)
  : M A :=
  match body with
  | (t, inl e) => let '(t', r) := handler e in (t ++ t', r)
  | (t, inr a) => (t, inr a)
  end.

Notation "x <- m ;; k" := (bind m (fun x => k))
  (at level 61, m at next level, right associativity).
Notation "m ;; k" := (bind m (fun _ => k))
  (at level 61, right associativity).

Definition trace {A : Type} (m : M A) : list Event := fst m.
Definition outcome {A : Type} (m : M A) : Exception + A := snd m.

(** [v.k]: a TypeError when [v] is null or undefined. *)
Definition member (v : JSValue) (k : string) : M JSValue :=
  match v with
  | JUndefined =>
      throw {| kind := InternalError;
               message := "Cannot read properties of undefined (reading '"
                          ++ k ++ "')" |}
  | JNull =>
      throw {| kind := InternalError;
               message := "Cannot read properties of null (reading '"
                          ++ k ++ "')" |}
  | _ => ret (prop k v)
  end.

(** ** The process: environment, runtime built-ins, exchange client *)

(** [process.env] *)
Record Env : Type := {
  HOLLAEX_API_KEY : option string;
  HOLLAEX_API_SECRET : option string;
  HOLLAEX_API_URL : option string;
  HOLLAEX_WS_URL : option string;
  HOLLAEX_API_EXPIRES_AFTER : option string
}.

(** [!x] for an environment variable: unset or empty. *)
Definition unset (x : option string) : bool :=
  match x with
  | None => true
  | Some s => String.eqb s ""
  end.

(** [x || fallback] *)
Definition or_else (x : option string) (fallback : string) : string :=
  match x with
  | None => fallback
  | Some s => if String.eqb s "" then fallback else s
  end.

(** The result shape of every tool:
    [{ content: [{ type: 'text', text }], structuredContent }]. *)
Record ContentItem : Type := { type : string; text : string }.
Record ToolResult : Type := {
  content : list ContentItem;
  structuredContent : JSValue
}.

Definition formatResponse (message : string) (structuredContent : JSValue)
  : ToolResult :=
  {| content := [ {| type := "text"; text := message |} ];
     structuredContent := structuredContent |}.

(** The process a server runs in: its environment, two built-ins of the
    JavaScript runtime ([Number.prototype.toString] and [Number(string)],
    where [None] is NaN) and the exchange client library ([hollaex]: what a
    method call on a client built with the given options settles to, a
    rejection message or a payload).  The last two fields are what the spec
    leaves open about the protocol library: the message of a ToolNotFound
    failure, and the code of the failure for a payload that violates the
    output schema. *)
Record Process : Type := {
  env : Env;
  Number_toString : Q -> string;
  Number_of_string : string -> option Q;
  hollaex : ClientOptions -> string -> list JSValue -> string + JSValue;
  not_found_message : string -> string;
  output_violation : ErrorCode
}.

Section Process.

Variable proc : Process.

Definition API_KEY : option string := HOLLAEX_API_KEY (env proc).
Definition API_SECRET : option string := HOLLAEX_API_SECRET (env proc).
Definition API_URL : string :=
  or_else (HOLLAEX_API_URL (env proc)) "https://api.hollaex.com".
Definition WS_URL : string :=
  or_else (HOLLAEX_WS_URL (env proc)) "wss://api.hollaex.com/stream".
Definition API_EXPIRES_AFTER : option Q :=
  match HOLLAEX_API_EXPIRES_AFTER (env proc) with
  | None => Some (inject_Z 60)
  | Some s =>
      if String.eqb s "" then Some (inject_Z 60)
      else Number_of_string proc s
  end.

Definition makeClient : M ClientOptions :=
  if unset API_KEY || unset API_SECRET then
    throw {| kind := MissingCredentials;
             message := "Missing HOLLAEX_API_KEY or HOLLAEX_API_SECRET environment variables." |}
  else
    let options :=
      {| apiURL := API_URL;
         wsURL := WS_URL;
         apiKey := API_KEY;
         apiSecret := API_SECRET;
         apiExpiresAfter := API_EXPIRES_AFTER |} in
    emit (new_hollaex options) ;;
    ret options.

(** [await client.method(...args)]: the call is made, and a rejection is
    thrown as an upstream failure. *)
Definition await_call (client : ClientOptions) (method : string)
    (args : list JSValue) : M JSValue :=
  emit (client_call method args) ;;
  match hollaex proc client method args with
  | inl reason => throw {| kind := UpstreamError; message := reason |}
  | inr payload => ret payload
  end.

(** The text of [`${v}`]. *)
Definition str : JSValue -> string := to_string (Number_toString proc).

End Process.

(** ** Tools *)

(** The validated parameter mapping a handler receives: every input schema
    is an object schema, so the parsed data is an object. *)
Definition Args : Type := list (string * JSValue).

Definition arg (k : string) (args : Args) : JSValue := prop k (JObj args).

(** What [registerTool(name, {title, description, inputSchema,
    outputSchema}, handler)] records. *)
Record ToolDefinition : Type := {
  name : string;
  title : string;
  description : string;
  inputSchema : Schema;
  outputSchema : Schema;
  handler : Args -> M ToolResult
}.

Record McpServer : Type := {
  serverName : string;
  version : string;
  tools : list ToolDefinition
}.

Definition new_McpServer (serverName version : string) : McpServer :=
  {| serverName := serverName; version := version; tools := [] |}.

Definition registerTool (name title description : string)
    (inputSchema outputSchema : Schema) (handler : Args -> M ToolResult)
    (server : McpServer) : McpServer :=
  match server with
  | {| serverName := serverName; version := version; tools := registered |} =>
      {| serverName := serverName;
         version := version;
         tools := registered ++
           [ {| name := name; title := title; description := description;
                inputSchema := inputSchema; outputSchema := outputSchema;
                handler := handler |} ] |}
  end.

Definition tool_names (server : McpServer) : list string :=
  map name (tools server).

Fixpoint find_tool (n : string) (l : list ToolDefinition)
  : option ToolDefinition :=
  match l with
  | [] => None
  | t :: rest => if String.eqb n (name t) then Some t else find_tool n rest
  end.

(** ** The registry's entry point and the HTTP application *)

(** The description of a tool that a listing shows. *)
Record ToolInfo : Type := {
  info_name : string;
  info_title : string;
  info_description : string;
  info_inputSchema : Schema;
  info_outputSchema : Schema
}.

Definition tool_info (t : ToolDefinition) : ToolInfo :=
  {| info_name := name t;
     info_title := title t;
     info_description := description t;
     info_inputSchema := inputSchema t;
     info_outputSchema := outputSchema t |}.

(** The spec's InvocationResult: a success envelope (summary text and
    structured payload) or a failure envelope (error code and message). *)
Inductive InvocationResult : Type :=
| Success (result : ToolResult)
| Failure (code : ErrorCode) (message : string).

Definition issue_text (show : Q -> string) (i : Issue) : string :=
  join "." (path i) ++ ": " ++
  match code i with
  | required => "Required"
  | invalid_type expected => "Expected " ++ expected
  | invalid_enum_value allowed =>
      "Invalid enum value. Expected one of " ++ join ", " allowed
  | not_integer => "Expected integer"
  | too_small bound => "Number must be greater than " ++ show bound
  | too_big bound => "Number must be less than or equal to " ++ show bound
  | too_short n =>
      "Array must contain at least " ++ index_key n ++ " element(s)"
  | invalid_union => "Invalid input"
  end.

(** The schema violation description a failure carries. *)
Definition violations (show : Q -> string) (issues : list Issue) : string :=
  join "; " (map (issue_text show) issues).

(** The parsed parameter mapping of an invocation. *)
Definition parse_args (s : Schema) (params : JSValue) : list Issue + Args :=
  match safeParse s params with
  | inl issues => inl issues
  | inr (JObj props) => inr props
  | inr _ => inl [ {| code := invalid_type "object"; path := [] |} ]
  end.

(** [req.method], [req.path], [req.body] of a request, and
    [res.status(s).json(v)]. *)
Inductive HttpMethod : Type := GET | POST | OPTIONS | PUT | DELETE.

Record Request : Type := {
  req_method : HttpMethod;
  req_path : string;
  req_body : JSValue
}.

(** What a response carries: a JSON document written by the application
    itself, or what the protocol layer answers to a request. *)
Inductive Body : Type :=
| not_found
| json (v : JSValue)
| tool_list (id : JSValue) (tools : list ToolInfo)
| tool_result (id : JSValue) (r : InvocationResult).

Record Response : Type := { status : Z; body : Body }.

Record Route : Type := {
  route_method : HttpMethod;
  route_path : string;
  route_handler : Request -> list Event * Response
}.

Definition HttpMethod_eqb (a b : HttpMethod) : bool :=
  match a, b with
  | GET, GET | POST, POST | OPTIONS, OPTIONS | PUT, PUT | DELETE, DELETE => true
  | _, _ => false
  end.

(** The application answers with the first route registered for the
    request's method and path, and with 404 when there is none. *)
Fixpoint dispatch (routes : list Route) (req : Request)
  : list Event * Response :=
  match routes with
  | [] => ([], {| status := 404; body := not_found |})
  | r :: rest =>
      if HttpMethod_eqb (req_method req) (route_method r)
         && String.eqb (req_path req) (route_path r)
      then route_handler r req
      else dispatch rest req
  end.

Section Adapter.

Variable proc : Process.

(** Modelled from the spec: the registry's entry point
    [invoke(toolName, params) -> InvocationResult], which the protocol
    library ([McpServer], not part of the repository's sources) provides.
    "Unknown tool name -> fails with ToolNotFound"; "Validation failure ->
    fails with InvalidInput, carrying the schema violation description; the
    handler is never invoked"; a failure of the handler is returned as a
    failure envelope; "on success, the [...] result from the delegate is
    validated against the tool's output schema". *)
Definition invoke (server : McpServer) (toolName : string) (params : JSValue)
  : list Event * InvocationResult :=
  match find_tool toolName (tools server) with
  | None => ([], Failure ToolNotFound (not_found_message proc toolName))
  | Some tool =>
      match parse_args (inputSchema tool) params with
      | inl issues =>
          ([], Failure InvalidInput (violations (Number_toString proc) issues))
      | inr args =>
          match handler tool args with
          | (t, inl e) => (t, Failure (kind e) (message e))
          | (t, inr result) =>
              match safeParse (outputSchema tool) (structuredContent result) with
              | inl issues =>
                  (t, Failure (output_violation proc)
                        (violations (Number_toString proc) issues))
              | inr _ => (t, Success result)
              end
          end
      end
  end.

(** The listing of the registry. *)
Definition listTools (server : McpServer) : list ToolInfo :=
  map tool_info (tools server).

(** Modelled from the spec: the protocol layer behind
    [transport.handleRequest(req, res, req.body)] (not part of the
    repository's sources): a request carries [{tool name, params}] and a
    correlation id; a listing or an invocation is answered with its result,
    and a "malformed JSON-RPC envelope" is answered, "without reaching the
    registry", with the internal-error response of the handler's [catch]. *)
Definition handleRequest (server : McpServer) (req : Request)
  : list Event * Response :=
  let rpc := req_body req in
  let id := prop "id" rpc in
  if is_string "tools/list" (prop "method" rpc) then
    ([], {| status := 200; body := tool_list id (listTools server) |})
  else if is_string "tools/call" (prop "method" rpc) then
    match prop "name" (prop "params" rpc) with
    | JStr toolName =>
        let '(t, r) :=
          invoke server toolName (prop "arguments" (prop "params" rpc)) in
        (t, {| status := 200; body := tool_result id r |})
    | _ =>
        ([], {| status := 500;
                body := json (JObj [
                  ("jsonrpc", JStr "2.0");
                  ("error", JObj [("code", num (-32603));
                                  ("message", JStr "Internal server error")]);
                  ("id", JNull) ]) |})
    end
  else
    ([], {| status := 500;
            body := json (JObj [
              ("jsonrpc", JStr "2.0");
              ("error", JObj [("code", num (-32603));
                              ("message", JStr "Internal server error")]);
              ("id", JNull) ]) |}).

Definition mcpPaths : list string := ["/mcp"; "/api/mcp"].
Definition healthPaths : list string := ["/health"; "/api/mcp/health"].

(** The body of [createHttpApp], the same in both versions of the server
    but for the [buildServer] it calls on every request. *)
Definition http_app (buildServer : McpServer) : list Route :=
  flat_map
    (fun path =>
       [ {| route_method := POST; route_path := path;
            route_handler := fun req => handleRequest buildServer req |};
         {| route_method := OPTIONS; route_path := path;
            route_handler := fun _req =>
              ([], {| status := 200;
                      body := json (JObj [("ok", JBool true)]) |}) |};
         {| route_method := GET; route_path := path;
            route_handler := fun _req =>
              ([], {| status := 200;
                      body := json (JObj [
                        ("ok", JBool true);
                        ("message", JStr "POST MCP requests here") ]) |}) |} ])
    mcpPaths
  ++ map
       (fun path =>
          {| route_method := GET; route_path := path;
             route_handler := fun _req =>
               ([], {| status := 200;
                       body := json (JObj [("ok", JBool true)]) |}) |})
       healthPaths.

End Adapter.

(** Schemas shared by both versions of the server. *)
Definition balanceOutputSchema : Schema :=
  z.object [ ("user_id", z.number |> optional) ] |> catchall z.number.

Definition orderOutputSchema : Schema :=
  z.object [
    ("id", z.string);
    ("symbol", z.string);
    ("side", z.string);
    ("size", z.number);
    ("type", z.string);
    ("price", z.number |> optional);
    ("status", z.string);
    ("filled", z.number);
    ("average", z.number |> nullable |> optional);
    ("fee", z.number |> optional);
    ("fee_coin", z.string |> optional);
    ("created_at", z.string);
    ("updated_at", z.string);
    ("fee_structure",
      z.object [ ("maker", z.number); ("taker", z.number) ] |> optional);
    ("stop", z.number |> nullable |> optional);
    ("meta", z.record z.string z.unknown |> optional)
  ] |> passthrough.

(** ** The two-tool server, [src/src/mcp-server.js] *)
Module Simple.
Section Server.

Variable proc : Process.

Local Abbreviation makeClient := (makeClient proc).
Local Abbreviation await_call := (await_call proc).
Local Abbreviation str := (str proc).

Definition getUserBalance (_ : Args) : M ToolResult :=
  client <- makeClient ;;
  balances <- await_call client "getBalance" [] ;;
  ret {| content := [ {| type := "text"; text := "Fetched user balances." |} ];
         structuredContent := balances |}.

Definition placeOrder (args : Args) : M ToolResult :=
  let symbol := arg "symbol" args in
  let side := arg "side" args in
  let size := arg "size" args in
  let type := arg "type" args in
  let price := arg "price" args in
  try_catch
    (emit (console_error
             ("placeOrder called: " ++ str symbol ++ " " ++ str side ++ " "
              ++ str size ++ " " ++ str type ++ " "
              ++ str (coalesce price (JStr ""))) None) ;;
     (if is_string "limit" type && negb (truthy price)
      then throw {| kind := InvalidInput;
                    message := "price is required for limit orders" |}
      else ret tt) ;;
     client <- makeClient ;;
     order <- await_call client "createOrder"
                [symbol; side; size; type;
                 if is_string "limit" type then price else JUndefined] ;;
     id <- member order "id" ;;
     emit (console_error ("placeOrder success id=" ++ str id) None) ;;
     id <- member order "id" ;;
     ret {| content := [ {| type := "text";
                            text := "Placed order " ++ str id |} ];
            structuredContent := order |})
    (fun err =>
       emit (console_error "placeOrder error" (Some err)) ;;
       throw err).

Definition buildServer : McpServer :=
  new_McpServer "hollaex-trading-mcp" "1.0.0"
  |> registerTool "getUserBalance"
       "Get User Balance"
       "Return the authenticated user balances from HollaEx."
       (z.object [])
       balanceOutputSchema
       getUserBalance
  |> registerTool "placeOrder"
       "Place Order"
       "Place a user order on HollaEx (limit or market)."
       (z.object [
          ("symbol", z.string
             |> describe "Trading pair symbol, e.g. btc-usdt or eth-usdt");
          ("side", z.enum ["buy"; "sell"] |> describe "Order side");
          ("size", z.number |> positive
             |> describe "Order size (base currency amount)");
          ("type", z.enum ["limit"; "market"] |> default (JStr "limit")
             |> describe "Order type");
          ("price", z.number |> positive |> optional
             |> describe "Required for limit orders; ignored for market orders")
        ])
       orderOutputSchema
       placeOrder.

Definition createHttpApp : list Route := http_app proc buildServer.

End Server.
End Simple.

(** ** The trading server (the full [mcp-server.js]) *)
Module Trading.

Definition genericOutputSchema : Schema := z.unknown.

Definition cancelOutputSchema : Schema :=
  z.object [
    ("id", z.string |> optional);
    ("order_id", z.string |> optional);
    ("message", z.string |> optional);
    ("status", z.string |> optional)
  ] |> passthrough.

Section Server.

Variable proc : Process.

Local Abbreviation makeClient := (makeClient proc).
Local Abbreviation await_call := (await_call proc).
Local Abbreviation str := (str proc).

Definition getUserBalance (_ : Args) : M ToolResult :=
  client <- makeClient ;;
  balances <- await_call client "getBalance" [] ;;
  ret (formatResponse "Fetched user balances." balances).

Definition getBalance (_ : Args) : M ToolResult :=
  client <- makeClient ;;
  balances <- await_call client "getBalance" [] ;;
  ret (formatResponse "Fetched user balances." balances).

Definition placeOrder (args : Args) : M ToolResult :=
  let symbol := arg "symbol" args in
  let side := arg "side" args in
  let size := arg "size" args in
  let type := arg "type" args in
  let price := arg "price" args in
  let stop := arg "stop" args in
  let meta := arg "meta" args in
  try_catch
    (emit (console_error
             ("placeOrder called: " ++ str symbol ++ " " ++ str side ++ " "
              ++ str size ++ " " ++ str type ++ " "
              ++ str (coalesce price (JStr ""))) None) ;;
     (if is_string "limit" type && negb (truthy price)
      then throw {| kind := InvalidInput;
                    message := "price is required for limit orders" |}
      else ret tt) ;;
     client <- makeClient ;;
     let priceToSend := if is_string "limit" type then price else num 0 in
     let opts :=
       (if negb (is_undefined stop) then [("stop", stop)] else [])
       ++ (if truthy meta then [("meta", meta)] else []) in
     order <- await_call client "createOrder"
                [symbol; side; size; type; priceToSend;
                 nonempty_or_undefined opts] ;;
     id <- member order "id" ;;
     emit (console_error ("placeOrder success id=" ++ str id) None) ;;
     id <- member order "id" ;;
     ret (formatResponse ("Placed order " ++ str id) order))
    (fun err =>
       emit (console_error "placeOrder error" (Some err)) ;;
       throw err).

Definition cancelOrder (args : Args) : M ToolResult :=
  let orderId := arg "orderId" args in
  try_catch
    (emit (console_error ("cancelOrder called: " ++ str orderId) None) ;;
     client <- makeClient ;;
     result <- await_call client "cancelOrder" [orderId] ;;
     ret (formatResponse ("Canceled order " ++ str orderId) result))
    (fun err =>
       emit (console_error "cancelOrder error" (Some err)) ;;
       throw err).

Definition getKit (_ : Args) : M ToolResult :=
  client <- makeClient ;;
  kit <- await_call client "getKit" [] ;;
  ret (formatResponse "Fetched kit information." kit).

Definition getConstants (_ : Args) : M ToolResult :=
  client <- makeClient ;;
  constants <- await_call client "getConstants" [] ;;
  ret (formatResponse "Fetched constants." constants).

Definition getTicker (args : Args) : M ToolResult :=
  let symbol := arg "symbol" args in
  client <- makeClient ;;
  ticker <- await_call client "getTicker" [symbol] ;;
  ret (formatResponse ("Fetched ticker for " ++ str symbol ++ ".") ticker).

Definition getTickers (_ : Args) : M ToolResult :=
  client <- makeClient ;;
  tickers <- await_call client "getTickers" [] ;;
  ret (formatResponse "Fetched tickers for all symbols." tickers).

Definition getOrderbook (args : Args) : M ToolResult :=
  let symbol := arg "symbol" args in
  client <- makeClient ;;
  orderbook <- await_call client "getOrderbook" [symbol] ;;
  ret (formatResponse ("Fetched orderbook for " ++ str symbol ++ ".") orderbook).

Definition getOrderbooks (_ : Args) : M ToolResult :=
  client <- makeClient ;;
  orderbooks <- await_call client "getOrderbooks" [] ;;
  ret (formatResponse "Fetched orderbooks." orderbooks).

Definition getTrades (args : Args) : M ToolResult :=
  let symbol := arg "symbol" args in
  client <- makeClient ;;
  trades <- await_call client "getTrades" [JObj [("symbol", symbol)]] ;;
  ret (formatResponse
         ("Fetched recent trades"
          ++ (if truthy symbol then " for " ++ str symbol else "") ++ ".")
         trades).

Definition getUser (_ : Args) : M ToolResult :=
  client <- makeClient ;;
  user <- await_call client "getUser" [] ;;
  ret (formatResponse "Fetched user profile." user).

Definition getUserTrades (filters : Args) : M ToolResult :=
  client <- makeClient ;;
  trades <- await_call client "getUserTrades" [JObj filters] ;;
  ret (formatResponse "Fetched user trades." trades).

Definition getOrder (args : Args) : M ToolResult :=
  let orderId := arg "orderId" args in
  client <- makeClient ;;
  order <- await_call client "getOrder" [orderId] ;;
  ret (formatResponse ("Fetched order " ++ str orderId ++ ".") order).

Definition getOrders (filters : Args) : M ToolResult :=
  client <- makeClient ;;
  orders <- await_call client "getOrders" [JObj filters] ;;
  ret (formatResponse "Fetched orders." orders).

Definition cancelAllOrders (args : Args) : M ToolResult :=
  let symbol := arg "symbol" args in
  client <- makeClient ;;
  result <- await_call client "cancelAllOrders" [symbol] ;;
  ret (formatResponse ("Canceled all orders for " ++ str symbol ++ ".") result).

Definition getMiniCharts (args : Args) : M ToolResult :=
  let assets := arg "assets" args in
  let from := arg "from" args in
  let to := arg "to" args in
  let quote := arg "quote" args in
  client <- makeClient ;;
  result <- await_call client "getMiniCharts"
              [assets;
               JObj [("from", from); ("to", to); ("quote", quote);
                     ("assets", assets)]] ;;
  ret (formatResponse "Fetched mini charts." result).

Definition getQuickTradeQuote (args : Args) : M ToolResult :=
  let spending_currency := arg "spending_currency" args in
  let receiving_currency := arg "receiving_currency" args in
  let spending_amount := arg "spending_amount" args in
  let receiving_amount := arg "receiving_amount" args in
  client <- makeClient ;;
  result <- await_call client "getQuickTradeQuote"
              [spending_currency; receiving_currency;
               JObj [("spending_amount", spending_amount);
                     ("receiving_amount", receiving_amount)]] ;;
  ret (formatResponse "Fetched quick trade quote." result).

Definition executeOrder (args : Args) : M ToolResult :=
  let token := arg "token" args in
  client <- makeClient ;;
  result <- await_call client "executeOrder" [token] ;;
  ret (formatResponse "Executed order." result).

Definition buildServer : McpServer :=
  new_McpServer "hollaex-trading-mcp" "1.0.0"
  |> registerTool "getUserBalance"
       "Get User Balance"
       "Return the authenticated user balances from HollaEx."
       (z.object [])
       balanceOutputSchema
       getUserBalance
  |> registerTool "getBalance"
       "Get User Balance"
       "Return the authenticated user balances from HollaEx."
       (z.object [])
       balanceOutputSchema
       getBalance
  |> registerTool "placeOrder"
       "Place Order"
       "Place a user order on HollaEx. Set type to market (no price) or limit (requires price)."
       (z.object [
          ("symbol", z.string
             |> describe "Trading pair symbol, e.g. btc-usdt or eth-usdt");
          ("side", z.enum ["buy"; "sell"] |> describe "Order side");
          ("size", z.number |> positive
             |> describe "Order size (base currency amount)");
          ("type", z.enum ["limit"; "market"]
             |> describe "Order type (must choose market or limit)");
          ("price", z.number |> positive |> optional
             |> describe "Required for limit orders; ignored for market orders");
          ("stop", z.number |> positive |> optional
             |> describe "Optional stop price");
          ("meta",
             z.object [
               ("post_only", z.boolean |> optional);
               ("note", z.string |> optional)
             ] |> passthrough |> optional
             |> describe "Optional meta configuration")
        ])
       orderOutputSchema
       placeOrder
  |> registerTool "cancelOrder"
       "Cancel Order"
       "Cancel an existing order by order ID."
       (z.object [ ("orderId", z.string |> describe "Order ID to cancel") ])
       cancelOutputSchema
       cancelOrder
  |> registerTool "getKit"
       "Get Kit"
       "Get exchange information (name, languages, description)."
       (z.object [])
       genericOutputSchema
       getKit
  |> registerTool "getConstants"
       "Get Constants"
       "Retrieve tick size, min/max price, min/max size of each symbol pair and coin."
       (z.object [])
       genericOutputSchema
       getConstants
  |> registerTool "getTicker"
       "Get Ticker"
       "Retrieve 24h ticker data for a specific symbol."
       (z.object [
          ("symbol", z.string
             |> describe "Trading pair symbol, e.g. xht-usdt or btc-usdt")
        ])
       genericOutputSchema
       getTicker
  |> registerTool "getTickers"
       "Get Tickers"
       "Retrieve 24h ticker data for all symbols."
       (z.object [])
       genericOutputSchema
       getTickers
  |> registerTool "getOrderbook"
       "Get Orderbook"
       "Retrieve orderbook for a symbol."
       (z.object [
          ("symbol", z.string
             |> describe "Trading pair symbol, e.g. xht-usdt or btc-usdt")
        ])
       genericOutputSchema
       getOrderbook
  |> registerTool "getOrderbooks"
       "Get Orderbooks"
       "Retrieve orderbooks for all symbols."
       (z.object [])
       genericOutputSchema
       getOrderbooks
  |> registerTool "getTrades"
       "Get Trades"
       "Retrieve recent trades; optionally filter by symbol."
       (z.object [
          ("symbol", z.string |> optional
             |> describe "Optional trading pair symbol, e.g. xht-usdt")
        ])
       genericOutputSchema
       getTrades
  |> registerTool "getUser"
       "Get User"
       "Retrieve the authenticated user's profile information."
       (z.object [])
       genericOutputSchema
       getUser
  |> registerTool "getUserTrades"
       "Get User Trades"
       "Retrieve the user's trade history."
       (z.object [
          ("symbol", z.string |> optional
             |> describe "Optional trading pair symbol, e.g. xht-usdt");
          ("limit", z.number |> int |> positive |> max 50 |> optional
             |> describe "Trades per page (max 50)");
          ("page", z.number |> int |> positive |> optional
             |> describe "Page number (default 1)");
          ("orderBy", z.string |> optional |> describe "Field to order by");
          ("order", z.enum ["asc"; "desc"] |> optional
             |> describe "Sort direction");
          ("startDate", z.string |> optional
             |> describe "ISO8601 start date filter");
          ("endDate", z.string |> optional
             |> describe "ISO8601 end date filter");
          ("format", z.enum ["all"; "csv"] |> optional
             |> describe "Response format")
        ])
       genericOutputSchema
       getUserTrades
  |> registerTool "getOrder"
       "Get Order"
       "Retrieve a specific order by ID."
       (z.object [
          ("orderId", z.string |> describe "HollaEx Network order ID")
        ])
       orderOutputSchema
       getOrder
  |> registerTool "getOrders"
       "Get Orders"
       "Retrieve the list of user orders with optional filters (symbol, side, status)."
       (z.object [
          ("symbol", z.string |> optional
             |> describe "Optional trading pair symbol, e.g. xht-usdt");
          ("side", z.enum ["buy"; "sell"] |> optional
             |> describe "Order side filter");
          ("status", z.string |> optional |> describe "Order status filter");
          ("open", z.boolean |> optional |> describe "Filter by open orders");
          ("limit", z.number |> int |> positive |> max 50 |> optional
             |> describe "Orders per page (max 50)");
          ("page", z.number |> int |> positive |> optional
             |> describe "Page number (default 1)");
          ("orderBy", z.string |> optional |> describe "Field to order by");
          ("order", z.enum ["asc"; "desc"] |> optional
             |> describe "Sort direction");
          ("startDate", z.string |> optional
             |> describe "ISO8601 start date filter");
          ("endDate", z.string |> optional
             |> describe "ISO8601 end date filter")
        ])
       (z.array orderOutputSchema |> or genericOutputSchema)
       getOrders
  |> registerTool "cancelAllOrders"
       "Cancel All Orders"
       "Cancel all active orders for a specific trading pair symbol."
       (z.object [
          ("symbol", z.string
             |> describe "Trading pair symbol to cancel orders for, e.g. xht-usdt")
        ])
       genericOutputSchema
       cancelAllOrders
  |> registerTool "getMiniCharts"
       "Get Mini Charts"
       "Get trade history HOLCV for provided assets."
       (z.object [
          ("assets", z.array z.string |> nonempty
             |> describe ("List of asset symbols to fetch, e.g. ["
                          ++ quoted "xht" ++ ", " ++ quoted "btc" ++ "]"));
          ("from", z.string |> optional |> describe "ISO8601 start date");
          ("to", z.string |> optional |> describe "ISO8601 end date");
          ("quote", z.string |> optional
             |> describe "Optional quote asset to price against")
        ])
       genericOutputSchema
       getMiniCharts
  |> registerTool "getQuickTradeQuote"
       "Get Quick Trade Quote"
       "Get a quick trade quote between two currencies."
       (z.object [
          ("spending_currency", z.string
             |> describe "Currency symbol of the spending currency");
          ("receiving_currency", z.string
             |> describe "Currency symbol of the receiving currency");
          ("spending_amount", z.union [z.string; z.number] |> optional
             |> describe "Optional spending amount; provide this or receiving_amount");
          ("receiving_amount", z.union [z.string; z.number] |> optional
             |> describe "Optional receiving amount; provide this or spending_amount")
        ])
       genericOutputSchema
       getQuickTradeQuote
  |> registerTool "executeOrder"
       "Execute Order"
       "Execute a pre-created order using its token."
       (z.object [ ("token", z.string |> describe "Order execution token") ])
       genericOutputSchema
       executeOrder.

Definition createHttpApp : list Route := http_app proc buildServer.

End Server.
End Trading.

(** ** Starting the server

    [startStdio], [startHttp], [main] and the guarded call of [main] at the
    end of the file, the same in both versions of the server. *)

(** What decides the transport: three more variables of [process.env], and
    [process.argv]. *)
Record Launch : Type := {
  MCP_TRANSPORT : option string;
  MCP_HTTP_PORT : option string;
  PORT : option string;
  argv : list string
}.

(** What the transports answer: [server.connect(transport)] rejects with a
    reason or resolves, and [app.listen(port, callback)] calls back with an
    error or without. *)
Record Host : Type := {
  connects : option string;
  binds : option Q -> option string
}.

Inductive StartupEvent : Type :=
| connect_stdio
| listen (port : option Q)
| startup_line (text : string) (err : option string)
| exit (code : Z).

(** [a || b] where [a] is an environment variable. *)
Definition first_set (a : option string) (b : option string) : option string :=
  if unset a then b else a.

Section Startup.

Variable proc : Process.
Variable host : Host.
Variable launch : Launch.

(** [async function startStdio()]: the events, and the rejection if any. *)
Definition startStdio : list StartupEvent * option string :=
  match connects host with
  | Some reason => ([connect_stdio], Some reason)
  | None =>
      ([connect_stdio;
        startup_line "HollaEx MCP server running on stdio." None], None)
  end.

(** [Number(process.env.MCP_HTTP_PORT || process.env.PORT || 3000)]; [None]
    is NaN. *)
Definition port : option Q :=
  match first_set (MCP_HTTP_PORT launch) (PORT launch) with
  | Some s => if String.eqb s "" then Some (inject_Z 3000)
              else Number_of_string proc s
  | None => Some (inject_Z 3000)
  end.

Definition startHttp : list StartupEvent * option string :=
  (listen port ::
   match binds host port with
   | Some err =>
       [startup_line "Failed to start HTTP MCP server:" (Some err); exit 1]
   | None =>
       [startup_line
          ("HollaEx MCP HTTP server listening on :"
           ++ match port with
              | Some q => Number_toString proc q
              | None => "NaN"
              end ++ "/mcp") None]
   end, None).

(** [process.env.MCP_TRANSPORT ||
      (process.argv.includes('--http') ? 'http' : 'stdio')] *)
Definition mode : string :=
  match MCP_TRANSPORT launch with
  | Some s =>
      if String.eqb s "" then
        if existsb (String.eqb "--http") (argv launch) then "http" else "stdio"
      else s
  | None =>
      if existsb (String.eqb "--http") (argv launch) then "http" else "stdio"
  end.

Definition main : list StartupEvent * option string :=
  if String.eqb mode "http" then startHttp else startStdio.

(** [main().catch((err) => { console.error(...); process.exit(1); })] *)
Definition run_main : list StartupEvent :=
  match main with
  | (events, Some err) =>
      events ++ [startup_line "Failed to start MCP server:" (Some err); exit 1]
  | (events, None) => events
  end.

End Startup.

(** ** Vocabulary of the statements *)

(** [!API_KEY || !API_SECRET] *)
Definition credentials_missing (proc : Process) : bool :=
  unset (API_KEY proc) || unset (API_SECRET proc).

Definition missing_credentials : Exception :=
  {| kind := MissingCredentials;
     message := "Missing HOLLAEX_API_KEY or HOLLAEX_API_SECRET environment variables." |}.

Definition price_required : Exception :=
  {| kind := InvalidInput; message := "price is required for limit orders" |}.

(** The calls of one method of the exchange client in a trace. *)
Definition calls (method : string) (trace : list Event) : list Event :=
  filter (is_call method) trace.

(** The options [makeClient] builds when the credentials are there. *)
Definition client_options (proc : Process) : ClientOptions :=
  {| apiURL := API_URL proc;
     wsURL := WS_URL proc;
     apiKey := API_KEY proc;
     apiSecret := API_SECRET proc;
     apiExpiresAfter := API_EXPIRES_AFTER proc |}.

(** The input schema registered under a tool name. *)
Definition input_schema_of (server : McpServer) (toolName : string) : Schema :=
  match find_tool toolName (tools server) with
  | Some tool => inputSchema tool
  | None => ZUnknown
  end.

(** A process for the examples: credentials as given, an exchange client
    that settles every call to [payload]. *)
Definition sample_env (key secret : option string) : Env :=
  {| HOLLAEX_API_KEY := key;
     HOLLAEX_API_SECRET := secret;
     HOLLAEX_API_URL := None;
     HOLLAEX_WS_URL := None;
     HOLLAEX_API_EXPIRES_AFTER := None |}.

Definition sample_process (key secret : option string) (payload : JSValue)
  : Process :=
  {| env := sample_env key secret;
     Number_toString := fun q =>
       NilEmpty.string_of_int (Z.to_int (Qnum q / Zpos (Qden q)));
     Number_of_string := fun _ => None;
     hollaex := fun _ _ _ => inr payload;
     not_found_message := fun toolName =>
       ("Tool " ++ toolName ++ " not found")%string;
     output_violation := InternalError |}.

(** The order of the concrete scenario, as parameters and as the payload the
    exchange returns. *)
Definition scenario_input : Args :=
  [ ("symbol", JStr "btc-usdt"); ("side", JStr "buy"); ("size", num 1);
    ("type", JStr "limit"); ("price", num 10000) ].

Definition scenario_order : JSValue :=
  JObj [ ("id", JStr "123"); ("symbol", JStr "btc-usdt"); ("side", JStr "buy");
         ("size", num 1); ("type", JStr "limit"); ("price", num 10000);
         ("status", JStr "new"); ("filled", num 0);
         ("created_at", JStr "..."); ("updated_at", JStr "...") ].

(** Valid parameters of a limit order that names no price, and of a
    market order. *)
Definition limit_order_without_price : Args :=
  [ ("symbol", JStr "btc-usdt"); ("side", JStr "buy"); ("size", num 1);
    ("type", JStr "limit") ].

Definition market_order : Args :=
  [ ("symbol", JStr "btc-usdt"); ("side", JStr "buy"); ("size", num 1);
    ("type", JStr "market") ].

(** Processes for the examples: one with credentials, one without. *)
Definition trader : Process :=
  sample_process (Some "key") (Some "secret") scenario_order.

Definition anonymous : Process :=
  sample_process None None scenario_order.

(** The HTTP request that asks a server for its tool listing, and the
    response of a liveness probe. *)
Definition tools_list_request (path : string) (id : JSValue) : Request :=
  {| req_method := POST;
     req_path := path;
     req_body := JObj [ ("jsonrpc", JStr "2.0"); ("id", id);
                        ("method", JStr "tools/list") ] |}.

Definition ok_response : Response :=
  {| status := 200; body := json (JObj [("ok", JBool true)]) |}.

(** The error a handler fails with when the credentials are missing: the
    price error when [placeOrder] is given a limit order without a price,
    MissingCredentials otherwise. *)
Definition failure_without_credentials (tool : ToolDefinition) (args : Args)
  : Exception :=
  if String.eqb (name tool) "placeOrder"
     && (is_string "limit" (arg "type" args)
         && negb (truthy (arg "price" args)))
  then price_required
  else missing_credentials.

(** The statement that every tool handler fails with MissingCredentials when
    the credentials are missing. *)
Definition every_handler_reports_missing_credentials : Prop :=
  forall (proc : Process) (toolName : string) (tool : ToolDefinition)
         (args : Args),
    find_tool toolName (tools (Trading.buildServer proc)) = Some tool ->
    credentials_missing proc = true ->
    outcome (handler tool args) = inl missing_credentials /\
    delegate_events (trace (handler tool args)) = [].

(** The loop of [parse] over the declared fields of an object schema,
    as a function of its own. *)
Fixpoint parse_fields (path : list string) (v : JSValue)
    (props : list (string * JSValue)) (shape : list (string * Schema))
  : list Issue * list (string * JSValue) :=
  match shape with
  | [] => ([], [])
  | (k, field) :: shape' =>
      let '(issues, out) := parse_fields path v props shape' in
      match parse field (path ++ [k]) (prop k v) with
      | inl found => (found ++ issues, out)
      | inr x =>
          (issues,
           if has_key k props || negb (is_undefined x)
           then (k, x) :: out else out)
      end
  end.

(** The schema an object schema declares for a field. *)
Definition field_schema (s : Schema) (k : string) : Schema :=
  match s with
  | ZObject shape _ _ =>
      match assoc k shape with Some field => field | None => ZUnknown end
  | _ => ZUnknown
  end.

(** The fields an object schema declares. *)
Definition declared_fields (s : Schema) : list (string * Schema) :=
  match s with
  | ZObject shape _ _ => shape
  | _ => []
  end.

(** The two servers of the repository, in a given process. *)
Definition servers (proc : Process) : list McpServer :=
  [Trading.buildServer proc; Simple.buildServer proc].

(** The tool catalog of the trading server. *)
Definition trading_catalog : list string :=
  [ "getUserBalance"; "getBalance"; "placeOrder"; "cancelOrder"; "getKit";
    "getConstants"; "getTicker"; "getTickers"; "getOrderbook";
    "getOrderbooks"; "getTrades"; "getUser"; "getUserTrades"; "getOrder";
    "getOrders"; "cancelAllOrders"; "getMiniCharts"; "getQuickTradeQuote";
    "executeOrder" ].

(** Parameters of [placeOrder] that violate its input schema: a side
    outside the enumeration, a size that is not positive, no type. *)
Definition invalid_order : JSValue :=
  JObj [ ("symbol", JStr "btc-usdt"); ("side", JStr "hold"); ("size", num 0) ].

(** The method of the exchange client behind a tool: [getBalance] for
    [getUserBalance], [createOrder] for [placeOrder], and the method of the
    same name for every other tool. *)
Definition method_of (toolName : string) : string :=
  if String.eqb toolName "getUserBalance" then "getBalance"
  else if String.eqb toolName "placeOrder" then "createOrder"
  else toolName.

(** The handlers that write to the diagnostic stream. *)
Definition writes_diagnostics (toolName : string) : bool :=
  String.eqb toolName "placeOrder" || String.eqb toolName "cancelOrder".

(** The common body of the handlers that only pass a call on:
    [makeClient], one awaited call, [formatResponse]. *)
Definition pass_on (proc : Process) (method : string) (a : list JSValue)
    (summary : string) : M ToolResult :=
  client <- makeClient proc ;;
  payload <- await_call proc client method a ;;
  ret (formatResponse summary payload).

(** The shapes a run of a handler can have, for a handler that talks to the
    exchange through [method]: refused before any use of the client;
    one call, rejected by the exchange; one call, answered, and the answer
    returned; one call, answered, and the handler failing on the answer.
    [before] and [after] are diagnostic lines. *)
Inductive handler_run (proc : Process) (method : string)
  : M ToolResult -> Prop :=
| refused (lines : list Event) (e : Exception) :
    delegate_events lines = [] ->
    (e = missing_credentials /\ credentials_missing proc = true) \/
    (e = price_required /\ method = "createOrder") ->
    handler_run proc method (lines, inl e)
| rejected (before after : list Event) (a : list JSValue) (reason : string) :
    delegate_events before = [] ->
    delegate_events after = [] ->
    credentials_missing proc = false ->
    hollaex proc (client_options proc) method a = inl reason ->
    handler_run proc method
      (before ++ new_hollaex (client_options proc) :: client_call method a
         :: after,
       inl {| kind := UpstreamError; message := reason |})
| answered (before after : list Event) (a : list JSValue) (payload : JSValue)
    (summary : string) :
    delegate_events before = [] ->
    delegate_events after = [] ->
    credentials_missing proc = false ->
    hollaex proc (client_options proc) method a = inr payload ->
    handler_run proc method
      (before ++ new_hollaex (client_options proc) :: client_call method a
         :: after,
       inr (formatResponse summary payload))
| broken (before after : list Event) (a : list JSValue) (payload : JSValue)
    (e : Exception) :
    delegate_events before = [] ->
    delegate_events after = [] ->
    credentials_missing proc = false ->
    hollaex proc (client_options proc) method a = inr payload ->
    nullish payload = true ->
    kind e = InternalError ->
    method = "createOrder" ->
    handler_run proc method
      (before ++ new_hollaex (client_options proc) :: client_call method a
         :: after,
       inl e).

(** The diagnostic lines of a trace. *)
Definition is_console_error (e : Event) : bool :=
  match e with console_error _ _ => true | _ => false end.

(** A process with credentials whose exchange rejects every call, and one
    whose exchange answers every call with [null]. *)
Definition rejecting : Process :=
  {| env := sample_env (Some "key") (Some "secret");
     Number_toString := Number_toString trader;
     Number_of_string := fun _ => None;
     hollaex := fun _ _ _ => inl "Insufficient balance";
     not_found_message := not_found_message trader;
     output_violation := InternalError |}.

Definition answering_null : Process :=
  sample_process (Some "key") (Some "secret") JNull.

(** A market order that names a price, a stop and a note all the same. *)
Definition market_order_with_price : Args :=
  [ ("symbol", JStr "btc-usdt"); ("side", JStr "sell"); ("size", num 2);
    ("type", JStr "market"); ("price", num 9000); ("stop", num 8500);
    ("meta", JObj [("note", JStr "hedge")]) ].

(** The answer to a GET on an MCP path. *)
Definition post_here_response : Response :=
  {| status := 200;
     body := json (JObj [ ("ok", JBool true);
                          ("message", JStr "POST MCP requests here") ]) |}.

(** The transport [main] selects is HTTP. *)
Definition http_selected (launch : Launch) : Prop :=
  MCP_TRANSPORT launch = Some "http" \/
  ((MCP_TRANSPORT launch = None \/ MCP_TRANSPORT launch = Some "") /\
   In "--http" (argv launch)).

(** The transport cannot start: the port cannot be bound, or the
    connection over stdio is refused. *)
Definition transport_fails (proc : Process) (host : Host) (launch : Launch)
  : Prop :=
  (http_selected launch /\ binds host (port proc launch) <> None) \/
  (~ http_selected launch /\ connects host <> None).

(** Launches and hosts for the examples. *)
Definition launch_with_flag : Launch :=
  {| MCP_TRANSPORT := None; MCP_HTTP_PORT := None; PORT := Some "8080";
     argv := ["node"; "mcp-server.js"; "--http"] |}.

Definition launch_stdio_forced : Launch :=
  {| MCP_TRANSPORT := Some "stdio"; MCP_HTTP_PORT := None; PORT := None;
     argv := ["node"; "mcp-server.js"; "--http"] |}.

Definition port_taken : Host :=
  {| connects := None; binds := fun _ => Some "EADDRINUSE" |}.

Definition healthy_host : Host :=
  {| connects := None; binds := fun _ => None |}.

(** The loop of [parse] over the undeclared properties of an object whose
    schema has a catch-all, as a function of its own. *)
Fixpoint parse_rest (rest : Schema) (path : list string)
    (undeclared : list (string * JSValue))
  : list Issue * list (string * JSValue) :=
  match undeclared with
  | [] => ([], [])
  | (k, x) :: others =>
      let '(issues, out) := parse_rest rest path others in
      match parse rest (path ++ [k]) x with
      | inl found => (found ++ issues, out)
      | inr x' => (issues, (k, x') :: out)
      end
  end.

(** Parameters of an order with no type and no price, and a balance whose
    properties are not all numbers. *)
Definition untyped_order : list (string * JSValue) :=
  [ ("symbol", JStr "btc-usdt"); ("side", JStr "buy"); ("size", num 1) ].

Definition dated_balance : list (string * JSValue) :=
  [ ("user_id", num 7); ("btc_balance", num 2);
    ("updated_at", JStr "2020-03-23T04:30:52.515Z") ].

(** ** The handler monad and [makeClient] *)

Lemma bind_ret {A B : Type} (a : A) (k : A -> M B) :
  bind (ret a) k = k a.
Proof. unfold bind, ret. destruct (k a) as [t r]. reflexivity. Qed.

Lemma bind_throw {A B : Type} (e : Exception) (k : A -> M B) :
  bind (throw e) k = throw e.
Proof. reflexivity. Qed.

Lemma bind_emit {B : Type} (e : Event) (k : unit -> M B) :
  bind (emit e) k = (e :: trace (k tt), outcome (k tt)).
Proof. unfold bind, emit, trace, outcome. destruct (k tt). reflexivity. Qed.

Lemma makeClient_missing (proc : Process) :
  credentials_missing proc = true ->
  makeClient proc = throw missing_credentials.
Proof.
  unfold credentials_missing, makeClient. intros ->. reflexivity.
Qed.

Lemma makeClient_present (proc : Process) :
  credentials_missing proc = false ->
  makeClient proc =
    ([new_hollaex (client_options proc)], inr (client_options proc)).
Proof.
  unfold credentials_missing, makeClient. intros ->. reflexivity.
Qed.

Lemma await_call_resolved (proc : Process) client method args payload :
  hollaex proc client method args = inr payload ->
  await_call proc client method args = ([client_call method args], inr payload).
Proof. unfold await_call. intros H. rewrite bind_emit, H. reflexivity. Qed.

Lemma await_call_rejected (proc : Process) client method args reason :
  hollaex proc client method args = inl reason ->
  await_call proc client method args =
    ([client_call method args],
     inl {| kind := UpstreamError; message := reason |}).
Proof. unfold await_call. intros H. rewrite bind_emit, H. reflexivity. Qed.

(** [is_string] decides equality with a string value. *)
Lemma is_string_true (text : string) (v : JSValue) :
  is_string text v = true <-> v = JStr text.
Proof.
  destruct v; simpl; try (split; intros H; discriminate H).
  rewrite String.eqb_eq. split; [intros -> | intros [= ->]]; reflexivity.
Qed.

(** ** [placeOrder]: the price of a limit order *)

(** What the trading server's [placeOrder] does with a limit order that has
    no usable price: two diagnostic lines and the price error, nothing else. *)
Lemma trading_placeOrder_rejects (proc : Process) (args : Args) :
  is_string "limit" (arg "type" args) = true ->
  truthy (arg "price" args) = false ->
  exists line,
    Trading.placeOrder proc args =
      ([console_error line None;
        console_error "placeOrder error" (Some price_required)],
       inl price_required).
Proof.
  intros Htype Hprice. unfold Trading.placeOrder.
  rewrite Htype, Hprice. eexists. reflexivity.
Qed.

Lemma simple_placeOrder_rejects (proc : Process) (args : Args) :
  is_string "limit" (arg "type" args) = true ->
  truthy (arg "price" args) = false ->
  exists line,
    Simple.placeOrder proc args =
      ([console_error line None;
        console_error "placeOrder error" (Some price_required)],
       inl price_required).
Proof.
  intros Htype Hprice. unfold Simple.placeOrder.
  rewrite Htype, Hprice. eexists. reflexivity.
Qed.

(** C1.  A [placeOrder] call with type "limit" and no price fails with the
    InvalidInput error 'price is required for limit orders', and the
    exchange client's [createOrder] is never called; in both versions of the
    server, whatever the process. *)
Theorem placeOrder_limit_requires_price :
  forall (proc : Process) (args : Args),
    arg "type" args = JStr "limit" ->
    arg "price" args = JUndefined ->
    (outcome (Trading.placeOrder proc args) = inl price_required /\
     calls "createOrder" (trace (Trading.placeOrder proc args)) = []) /\
    (outcome (Simple.placeOrder proc args) = inl price_required /\
     calls "createOrder" (trace (Simple.placeOrder proc args)) = []).
Proof.
  intros proc args Htype Hprice.
  assert (Hlimit : is_string "limit" (arg "type" args) = true)
    by (apply is_string_true; exact Htype).
  assert (Hfalsy : truthy (arg "price" args) = false)
    by (rewrite Hprice; reflexivity).
  destruct (trading_placeOrder_rejects proc args Hlimit Hfalsy) as [l1 E1].
  destruct (simple_placeOrder_rejects proc args Hlimit Hfalsy) as [l2 E2].
  rewrite E1, E2. repeat split.
Qed.

Lemma placeOrder_limit_requires_price_witness :
  arg "type" limit_order_without_price = JStr "limit" /\
  arg "price" limit_order_without_price = JUndefined /\
  (outcome (Trading.placeOrder trader limit_order_without_price)
     = inl price_required /\
   calls "createOrder"
     (trace (Trading.placeOrder trader limit_order_without_price)) = []) /\
  (outcome (Simple.placeOrder trader limit_order_without_price)
     = inl price_required /\
   calls "createOrder"
     (trace (Simple.placeOrder trader limit_order_without_price)) = []).
Proof.
  split; [reflexivity | split; [reflexivity |]].
  apply (placeOrder_limit_requires_price trader limit_order_without_price);
    reflexivity.
Defined.

(** C9.  In [placeOrder] the price check comes before the credential check:
    with the API key or secret absent, so that [makeClient] would throw
    MissingCredentials, a limit order without a price still fails with the
    InvalidInput price error, and the exchange client is never constructed
    nor called. *)
Theorem placeOrder_price_check_precedes_credentials :
  forall (proc : Process) (args : Args),
    credentials_missing proc = true ->
    arg "type" args = JStr "limit" ->
    arg "price" args = JUndefined ->
    outcome (makeClient proc) = inl missing_credentials /\
    (outcome (Trading.placeOrder proc args) = inl price_required /\
     outcome (Trading.placeOrder proc args) <> inl missing_credentials /\
     delegate_events (trace (Trading.placeOrder proc args)) = []) /\
    (outcome (Simple.placeOrder proc args) = inl price_required /\
     outcome (Simple.placeOrder proc args) <> inl missing_credentials /\
     delegate_events (trace (Simple.placeOrder proc args)) = []).
Proof.
  intros proc args Hcred Htype Hprice.
  assert (Hlimit : is_string "limit" (arg "type" args) = true)
    by (apply is_string_true; exact Htype).
  assert (Hfalsy : truthy (arg "price" args) = false)
    by (rewrite Hprice; reflexivity).
  destruct (trading_placeOrder_rejects proc args Hlimit Hfalsy) as [l1 E1].
  destruct (simple_placeOrder_rejects proc args Hlimit Hfalsy) as [l2 E2].
  rewrite E1, E2, (makeClient_missing proc Hcred).
  repeat split; discriminate.
Qed.

Lemma placeOrder_price_check_precedes_credentials_witness :
  credentials_missing anonymous = true /\
  arg "type" limit_order_without_price = JStr "limit" /\
  arg "price" limit_order_without_price = JUndefined /\
  outcome (makeClient anonymous) = inl missing_credentials /\
  (outcome (Trading.placeOrder anonymous limit_order_without_price)
     = inl price_required /\
   outcome (Trading.placeOrder anonymous limit_order_without_price)
     <> inl missing_credentials /\
   delegate_events
     (trace (Trading.placeOrder anonymous limit_order_without_price)) = []) /\
  (outcome (Simple.placeOrder anonymous limit_order_without_price)
     = inl price_required /\
   outcome (Simple.placeOrder anonymous limit_order_without_price)
     <> inl missing_credentials /\
   delegate_events
     (trace (Simple.placeOrder anonymous limit_order_without_price)) = []).
Proof.
  split; [reflexivity | split; [reflexivity | split; [reflexivity |]]].
  apply (placeOrder_price_check_precedes_credentials
           anonymous limit_order_without_price); reflexivity.
Defined.

(** ** [placeOrder]: orders that reach the exchange *)

Lemma member_defined (v : JSValue) (k : string) :
  nullish v = false -> member v k = ret (prop k v).
Proof. destruct v; simpl; intros H; try discriminate H; reflexivity. Qed.

(** The trading server's [placeOrder] once the price check is passed, the
    credentials are there and the exchange accepts the order. *)
Lemma trading_placeOrder_accepted (proc : Process) (args : Args)
    (order : JSValue) :
  credentials_missing proc = false ->
  is_string "limit" (arg "type" args) && negb (truthy (arg "price" args))
    = false ->
  (forall client a, hollaex proc client "createOrder" a = inr order) ->
  nullish order = false ->
  exists line opts,
    Trading.placeOrder proc args =
      ([console_error line None;
        new_hollaex (client_options proc);
        client_call "createOrder"
          [arg "symbol" args; arg "side" args; arg "size" args;
           arg "type" args;
           if is_string "limit" (arg "type" args) then arg "price" args
           else num 0;
           opts];
        console_error ("placeOrder success id=" ++ str proc (prop "id" order))
          None],
       inr (formatResponse ("Placed order " ++ str proc (prop "id" order))
              order)).
Proof.
  intros Hcred Hcheck Hcall Horder. unfold Trading.placeOrder.
  rewrite Hcheck, (makeClient_present proc Hcred).
  unfold await_call. do 2 eexists.
  unfold try_catch, bind, emit, ret, throw.
  rewrite Hcall, (member_defined order "id" Horder).
  unfold ret. reflexivity.
Qed.

Lemma simple_placeOrder_accepted (proc : Process) (args : Args)
    (order : JSValue) :
  credentials_missing proc = false ->
  is_string "limit" (arg "type" args) && negb (truthy (arg "price" args))
    = false ->
  (forall client a, hollaex proc client "createOrder" a = inr order) ->
  nullish order = false ->
  exists line,
    Simple.placeOrder proc args =
      ([console_error line None;
        new_hollaex (client_options proc);
        client_call "createOrder"
          [arg "symbol" args; arg "side" args; arg "size" args;
           arg "type" args;
           if is_string "limit" (arg "type" args) then arg "price" args
           else JUndefined];
        console_error ("placeOrder success id=" ++ str proc (prop "id" order))
          None],
       inr {| content := [ {| type := "text";
                              text := "Placed order "
                                      ++ str proc (prop "id" order) |} ];
              structuredContent := order |}).
Proof.
  intros Hcred Hcheck Hcall Horder. unfold Simple.placeOrder.
  rewrite Hcheck, (makeClient_present proc Hcred).
  unfold await_call. eexists.
  unfold try_catch, bind, emit, ret, throw.
  rewrite Hcall, (member_defined order "id" Horder).
  unfold ret. reflexivity.
Qed.

(** C4.  A [placeOrder] call with type "market" and no price, with the
    credentials configured and an exchange client whose [createOrder]
    resolves to an order, succeeds with that order, and [createOrder] is
    called once: with the sentinel price 0 in the trading server, and with
    [undefined] in place of a price in the two-tool server. *)
Theorem placeOrder_market_needs_no_price :
  forall (proc : Process) (args : Args) (order : JSValue),
    credentials_missing proc = false ->
    arg "type" args = JStr "market" ->
    arg "price" args = JUndefined ->
    (forall client a, hollaex proc client "createOrder" a = inr order) ->
    nullish order = false ->
    (outcome (Trading.placeOrder proc args)
       = inr (formatResponse ("Placed order " ++ str proc (prop "id" order))
                order) /\
     exists opts,
       calls "createOrder" (trace (Trading.placeOrder proc args))
         = [client_call "createOrder"
              [arg "symbol" args; arg "side" args; arg "size" args;
               JStr "market"; num 0; opts]]) /\
    (outcome (Simple.placeOrder proc args)
       = inr (formatResponse ("Placed order " ++ str proc (prop "id" order))
                order) /\
     calls "createOrder" (trace (Simple.placeOrder proc args))
       = [client_call "createOrder"
            [arg "symbol" args; arg "side" args; arg "size" args;
             JStr "market"; JUndefined]]).
Proof.
  intros proc args order Hcred Htype Hprice Hcall Horder.
  assert (Hcheck : is_string "limit" (arg "type" args)
                   && negb (truthy (arg "price" args)) = false)
    by (rewrite Htype; reflexivity).
  destruct (trading_placeOrder_accepted proc args order Hcred Hcheck Hcall Horder)
    as (l1 & opts & E1).
  destruct (simple_placeOrder_accepted proc args order Hcred Hcheck Hcall Horder)
    as (l2 & E2).
  rewrite E1, E2, Htype. split; split.
  - reflexivity.
  - exists opts. reflexivity.
  - reflexivity.
  - reflexivity.
Qed.

Lemma placeOrder_market_needs_no_price_witness :
  credentials_missing trader = false /\
  arg "type" market_order = JStr "market" /\
  arg "price" market_order = JUndefined /\
  outcome (Trading.placeOrder trader market_order)
    = inr (formatResponse "Placed order 123" scenario_order) /\
  outcome (Simple.placeOrder trader market_order)
    = inr (formatResponse "Placed order 123" scenario_order).
Proof.
  split; [reflexivity | split; [reflexivity | split; [reflexivity |]]].
  destruct (placeOrder_market_needs_no_price trader market_order scenario_order)
    as [[Ht _] [Hs _]]; try reflexivity.
  split; [exact Ht | exact Hs].
Defined.

(** C6.  The concrete scenario: [placeOrder] with
    [{symbol: "btc-usdt", side: "buy", size: 1, type: "limit", price: 10000}],
    when [createOrder] resolves to the order with id "123", succeeds with the
    text "Placed order 123" and that order, unmodified, as structured
    content. *)
Theorem placeOrder_scenario :
  forall (proc : Process),
    credentials_missing proc = false ->
    (forall client a, hollaex proc client "createOrder" a = inr scenario_order) ->
    outcome (Trading.placeOrder proc scenario_input)
      = inr {| content := [ {| type := "text"; text := "Placed order 123" |} ];
               structuredContent := scenario_order |} /\
    outcome (Simple.placeOrder proc scenario_input)
      = inr {| content := [ {| type := "text"; text := "Placed order 123" |} ];
               structuredContent := scenario_order |}.
Proof.
  intros proc Hcred Hcall.
  destruct (trading_placeOrder_accepted proc scenario_input scenario_order
              Hcred eq_refl Hcall eq_refl) as (l1 & opts & E1).
  destruct (simple_placeOrder_accepted proc scenario_input scenario_order
              Hcred eq_refl Hcall eq_refl) as (l2 & E2).
  rewrite E1, E2. split; reflexivity.
Qed.

Lemma placeOrder_scenario_witness :
  credentials_missing trader = false /\
  (forall client a, hollaex trader client "createOrder" a = inr scenario_order) /\
  outcome (Trading.placeOrder trader scenario_input)
    = inr {| content := [ {| type := "text"; text := "Placed order 123" |} ];
             structuredContent := scenario_order |} /\
  outcome (Simple.placeOrder trader scenario_input)
    = inr {| content := [ {| type := "text"; text := "Placed order 123" |} ];
             structuredContent := scenario_order |}.
Proof.
  split; [reflexivity | split; [intros; reflexivity |]].
  apply (placeOrder_scenario trader); [reflexivity | intros; reflexivity].
Defined.

(** ** The two balance tools *)

Lemma balance_handler_resolved (proc : Process) (args : Args)
    (balances : JSValue) :
  credentials_missing proc = false ->
  hollaex proc (client_options proc) "getBalance" [] = inr balances ->
  Trading.getUserBalance proc args =
    ([new_hollaex (client_options proc); client_call "getBalance" []],
     inr (formatResponse "Fetched user balances." balances)).
Proof.
  intros Hcred Hcall. unfold Trading.getUserBalance.
  rewrite (makeClient_present proc Hcred).
  unfold bind at 1.
  rewrite (await_call_resolved proc _ _ _ _ Hcall). reflexivity.
Qed.

(** C10.  In the trading server [getUserBalance] and [getBalance] are
    registered with the same title, description, input schema (the empty
    object) and output schema, and their handlers return the same result on
    every input in every process; when the exchange client resolves
    [getBalance] to a balances object, that result is the text
    "Fetched user balances." with the balances as structured content. *)
Theorem getUserBalance_getBalance_identical :
  forall (proc : Process),
  exists user_tool balance_tool : ToolDefinition,
    find_tool "getUserBalance" (tools (Trading.buildServer proc))
      = Some user_tool /\
    find_tool "getBalance" (tools (Trading.buildServer proc))
      = Some balance_tool /\
    title user_tool = title balance_tool /\
    description user_tool = description balance_tool /\
    inputSchema user_tool = z.object [] /\
    inputSchema balance_tool = z.object [] /\
    outputSchema user_tool = outputSchema balance_tool /\
    (forall args : Args, handler user_tool args = handler balance_tool args) /\
    (forall (args : Args) (balances : JSValue),
        credentials_missing proc = false ->
        hollaex proc (client_options proc) "getBalance" [] = inr balances ->
        outcome (handler user_tool args)
          = inr (formatResponse "Fetched user balances." balances) /\
        outcome (handler balance_tool args)
          = inr (formatResponse "Fetched user balances." balances)).
Proof.
  intros proc. eexists. eexists.
  split; [reflexivity |]. split; [reflexivity |].
  repeat (split; [reflexivity |]).
  intros args balances Hcred Hcall. cbn [handler].
  change (Trading.getBalance proc args) with (Trading.getUserBalance proc args).
  rewrite (balance_handler_resolved proc args balances Hcred Hcall).
  split; reflexivity.
Qed.

Lemma getUserBalance_getBalance_identical_witness :
  exists user_tool balance_tool : ToolDefinition,
    find_tool "getUserBalance" (tools (Trading.buildServer trader))
      = Some user_tool /\
    find_tool "getBalance" (tools (Trading.buildServer trader))
      = Some balance_tool /\
    credentials_missing trader = false /\
    hollaex trader (client_options trader) "getBalance" [] = inr scenario_order /\
    outcome (handler user_tool []) =
      inr (formatResponse "Fetched user balances." scenario_order) /\
    outcome (handler balance_tool []) =
      inr (formatResponse "Fetched user balances." scenario_order).
Proof.
  destruct (getUserBalance_getBalance_identical trader)
    as (u & b & Hu & Hb & _ & _ & _ & _ & _ & _ & Hrun).
  exists u, b.
  split; [exact Hu | split; [exact Hb |]].
  split; [reflexivity | split; [reflexivity |]].
  apply (Hrun [] scenario_order); reflexivity.
Defined.

(** ** Missing credentials *)

Lemma tools_registerTool n t d i o h (server : McpServer) :
  tools (registerTool n t d i o h server) =
    tools server ++
    [ {| name := n; title := t; description := d; inputSchema := i;
         outputSchema := o; handler := h |} ].
Proof. destruct server. reflexivity. Qed.

(** A handler that starts with [makeClient] and then uses the client. *)
Lemma starts_with_makeClient (proc : Process)
    (k : ClientOptions -> M ToolResult) :
  credentials_missing proc = true ->
  (client <- makeClient proc ;; k client) = ([], inl missing_credentials).
Proof. intros H. rewrite (makeClient_missing proc H). reflexivity. Qed.

(** The handlers that do something before [makeClient]: [placeOrder] checks
    the price and may throw, [cancelOrder] only writes a diagnostic line. *)
Lemma trading_placeOrder_without_credentials (proc : Process) (args : Args) :
  credentials_missing proc = true ->
  delegate_events (trace (Trading.placeOrder proc args)) = [] /\
  outcome (Trading.placeOrder proc args) =
    inl (if is_string "limit" (arg "type" args)
            && negb (truthy (arg "price" args))
         then price_required else missing_credentials).
Proof.
  intros Hcred. unfold Trading.placeOrder.
  destruct (is_string "limit" (arg "type" args)
            && negb (truthy (arg "price" args)));
    rewrite ?(makeClient_missing proc Hcred); split; reflexivity.
Qed.

Lemma simple_placeOrder_without_credentials (proc : Process) (args : Args) :
  credentials_missing proc = true ->
  delegate_events (trace (Simple.placeOrder proc args)) = [] /\
  outcome (Simple.placeOrder proc args) =
    inl (if is_string "limit" (arg "type" args)
            && negb (truthy (arg "price" args))
         then price_required else missing_credentials).
Proof.
  intros Hcred. unfold Simple.placeOrder.
  destruct (is_string "limit" (arg "type" args)
            && negb (truthy (arg "price" args)));
    rewrite ?(makeClient_missing proc Hcred); split; reflexivity.
Qed.

Lemma cancelOrder_without_credentials (proc : Process) (args : Args) :
  credentials_missing proc = true ->
  delegate_events (trace (Trading.cancelOrder proc args)) = [] /\
  outcome (Trading.cancelOrder proc args) = inl missing_credentials.
Proof.
  intros Hcred. unfold Trading.cancelOrder.
  rewrite (makeClient_missing proc Hcred). split; reflexivity.
Qed.

(** One tool of a registry, the credentials missing. *)
Ltac handler_without_credentials Hcred :=
  cbn [handler name]; unfold failure_without_credentials;
  cbn [name String.eqb Ascii.eqb Bool.eqb andb];
  first
    [ apply trading_placeOrder_without_credentials; exact Hcred
    | apply simple_placeOrder_without_credentials; exact Hcred
    | apply cancelOrder_without_credentials; exact Hcred
    | unfold Trading.getUserBalance, Trading.getBalance, Trading.getKit,
        Trading.getConstants, Trading.getTicker, Trading.getTickers,
        Trading.getOrderbook, Trading.getOrderbooks, Trading.getTrades,
        Trading.getUser, Trading.getUserTrades, Trading.getOrder,
        Trading.getOrders, Trading.cancelAllOrders, Trading.getMiniCharts,
        Trading.getQuickTradeQuote, Trading.executeOrder,
        Simple.getUserBalance;
      rewrite (starts_with_makeClient _ _ Hcred); split; reflexivity ].

Lemma handler_without_credentials_fails (proc : Process)
    (tool : ToolDefinition) (args : Args) :
  In tool (tools (Trading.buildServer proc) ++ tools (Simple.buildServer proc)) ->
  credentials_missing proc = true ->
  delegate_events (trace (handler tool args)) = [] /\
  outcome (handler tool args) = inl (failure_without_credentials tool args).
Proof.
  intros Hin Hcred.
  unfold Trading.buildServer, Simple.buildServer in Hin.
  rewrite !tools_registerTool in Hin.
  cbn [new_McpServer tools app In] in Hin.
  repeat (destruct Hin as [<- | Hin]);
    [handler_without_credentials Hcred .. | contradiction].
Qed.

(** ** The HTTP application: liveness and listing *)

(** A liveness probe is answered by its own route, whatever the registry
    and the process. *)
Lemma health_route (proc : Process) (server : McpServer) (req : Request) :
  req_method req = GET ->
  In (req_path req) healthPaths ->
  dispatch (http_app proc server) req = ([], ok_response).
Proof.
  intros Hget Hpath. destruct req as [m p b]. simpl in Hget, Hpath. subst m.
  destruct Hpath as [<- | [<- | []]]; reflexivity.
Qed.

(** A listing request on either MCP path is answered with the registry's
    listing and touches nothing else. *)
Lemma listing_route (proc : Process) (server : McpServer) (path : string)
    (id : JSValue) :
  In path mcpPaths ->
  dispatch (http_app proc server) (tools_list_request path id) =
    ([], {| status := 200; body := tool_list id (listTools server) |}).
Proof.
  intros [<- | [<- | []]]; reflexivity.
Qed.

(** Not every handler reports
    MissingCredentials: a valid limit order without a price is refused for
    its price first. *)
Lemma placeOrder_reports_price_before_credentials :
  ~ every_handler_reports_missing_credentials.
Proof.
  intros Hall.
  pose proof (fun tool found =>
                Hall anonymous "placeOrder" tool limit_order_without_price
                  found eq_refl) as Horder.
  destruct (Horder _ eq_refl) as [Hout _].
  discriminate Hout.
Qed.

(** C2 (amended).  When the API key or the API secret is missing, every
    tool handler of both servers fails before any use of the exchange
    client: with MissingCredentials, except [placeOrder] given a limit order
    without a price, which fails with the price error.  Tool listing and the
    liveness endpoints succeed all the same. *)
Theorem handlers_fail_without_credentials :
  forall (proc : Process),
    credentials_missing proc = true ->
    (forall (tool : ToolDefinition) (args : Args),
        In tool (tools (Trading.buildServer proc)
                 ++ tools (Simple.buildServer proc)) ->
        outcome (handler tool args)
          = inl (failure_without_credentials tool args) /\
        delegate_events (trace (handler tool args)) = []) /\
    (forall (path : string) (id : JSValue),
        In path mcpPaths ->
        dispatch (Trading.createHttpApp proc) (tools_list_request path id)
          = ([], {| status := 200;
                    body := tool_list id (listTools (Trading.buildServer proc)) |})
        /\
        dispatch (Simple.createHttpApp proc) (tools_list_request path id)
          = ([], {| status := 200;
                    body := tool_list id (listTools (Simple.buildServer proc)) |}))
    /\
    (forall (req : Request),
        req_method req = GET ->
        In (req_path req) healthPaths ->
        dispatch (Trading.createHttpApp proc) req = ([], ok_response) /\
        dispatch (Simple.createHttpApp proc) req = ([], ok_response)).
Proof.
  intros proc Hcred. split; [| split].
  - intros tool args Hin.
    destruct (handler_without_credentials_fails proc tool args Hin Hcred)
      as [Htrace Hout].
    split; assumption.
  - intros path id Hpath. unfold Trading.createHttpApp, Simple.createHttpApp.
    split; apply listing_route; exact Hpath.
  - intros req Hget Hpath. unfold Trading.createHttpApp, Simple.createHttpApp.
    split; apply health_route; assumption.
Qed.

Lemma find_tool_In (n : string) (l : list ToolDefinition) (t : ToolDefinition) :
  find_tool n l = Some t -> In t l /\ name t = n.
Proof.
  induction l as [| x l IH]; simpl; [discriminate |].
  destruct (String.eqb n (name x)) eqn:E.
  - intros [= <-]. apply String.eqb_eq in E. split; [left; reflexivity | congruence].
  - intros H. destruct (IH H) as [Hin Hn]. split; [right; exact Hin | exact Hn].
Qed.

Lemma handlers_fail_without_credentials_witness :
  credentials_missing anonymous = true /\
  outcome (Trading.getOrders anonymous [("limit", num 10)])
    = inl missing_credentials /\
  delegate_events (trace (Trading.getOrders anonymous [("limit", num 10)])) = [].
Proof.
  split; [reflexivity |].
  destruct (handlers_fail_without_credentials anonymous eq_refl) as [Hfail _].
  assert (Hfound : exists tool,
             find_tool "getOrders" (tools (Trading.buildServer anonymous))
               = Some tool /\ handler tool = Trading.getOrders anonymous)
    by (eexists; split; reflexivity).
  destruct Hfound as (tool & Hfound & Hhandler).
  destruct (find_tool_In _ _ _ Hfound) as [Hin Hname].
  rewrite <- Hhandler.
  replace missing_credentials
    with (failure_without_credentials tool [("limit", num 10)])
    by (unfold failure_without_credentials; rewrite Hname; reflexivity).
  apply Hfail. apply in_or_app. left. exact Hin.
Defined.

(** C8.  A GET request to a liveness path, [/health] or [/api/mcp/health],
    is answered with status 200 and [{ok: true}] and emits nothing, for every
    registry and every process; in particular while, the credentials being
    missing, a tool handler fails with MissingCredentials. *)
Theorem liveness_is_static :
  forall (proc : Process) (server : McpServer) (req : Request),
    req_method req = GET ->
    In (req_path req) healthPaths ->
    dispatch (http_app proc server) req = ([], ok_response) /\
    dispatch (Trading.createHttpApp proc) req = ([], ok_response) /\
    dispatch (Simple.createHttpApp proc) req = ([], ok_response) /\
    (credentials_missing proc = true ->
     forall args : Args,
       outcome (Trading.getUserBalance proc args) = inl missing_credentials /\
       outcome (Simple.getUserBalance proc args) = inl missing_credentials).
Proof.
  intros proc server req Hget Hpath.
  split; [apply health_route; assumption |].
  split; [apply health_route; assumption |].
  split; [apply health_route; assumption |].
  intros Hcred args.
  unfold Trading.getUserBalance, Simple.getUserBalance.
  rewrite !(starts_with_makeClient proc _ Hcred). split; reflexivity.
Qed.

Lemma liveness_is_static_witness :
  In "/api/mcp/health" healthPaths /\
  credentials_missing anonymous = true /\
  dispatch (Trading.createHttpApp anonymous)
    {| req_method := GET; req_path := "/api/mcp/health";
       req_body := JUndefined |} = ([], ok_response) /\
  outcome (Trading.getUserBalance anonymous []) = inl missing_credentials.
Proof.
  split; [right; left; reflexivity |]. split; [reflexivity |].
  destruct (liveness_is_static anonymous (Trading.buildServer anonymous)
              {| req_method := GET; req_path := "/api/mcp/health";
                 req_body := JUndefined |} eq_refl
              (or_intror (or_introl eq_refl)))
    as (_ & Happ & _ & Hfail).
  split; [exact Happ | apply (Hfail eq_refl [])].
Defined.

(** ** Validation of the parameters *)

(** [parse] on an object schema that strips undeclared keys, in terms of
    [parse_fields]. *)
Lemma parse_strict_object (path : list string) (shape : list (string * Schema))
    (props : list (string * JSValue)) :
  parse (ZObject shape strip_keys None) path (JObj props) =
    match fst (parse_fields path (JObj props) props shape) with
    | [] => inr (JObj (snd (parse_fields path (JObj props) props shape)))
    | issues => inl issues
    end.
Proof.
  assert (E : forall sh,
    (fix fields (sh : list (string * Schema))
       : list Issue * list (string * JSValue) :=
       match sh with
       | [] => ([], [])
       | (k, field) :: sh' =>
           let '(issues, out) := fields sh' in
           match parse field (path ++ [k]) (prop k (JObj props)) with
           | inl found => (found ++ issues, out)
           | inr x =>
               (issues,
                if has_key k props || negb (is_undefined x)
                then (k, x) :: out else out)
           end
       end) sh = parse_fields path (JObj props) props sh).
  { induction sh as [| [k f] sh IH]; [reflexivity |].
    simpl parse_fields. rewrite <- IH. reflexivity. }
  simpl. rewrite E, !app_nil_r. reflexivity.
Qed.

(** One declared field with a violation makes the whole object fail. *)
Lemma parse_fields_issue path v props shape k field i found :
  In (k, field) shape ->
  parse field (path ++ [k]) (prop k v) = inl (i :: found) ->
  fst (parse_fields path v props shape) <> [].
Proof.
  induction shape as [| [k' f'] shape IH]; simpl; [contradiction |].
  intros [[= -> ->] | Hin] Hfield.
  - rewrite Hfield. destruct (parse_fields path v props shape). simpl.
    discriminate.
  - specialize (IH Hin Hfield).
    destruct (parse_fields path v props shape) as [issues out].
    destruct (parse f' (path ++ [k']) (prop k' v)) as [more | x]; simpl in *.
    + destruct more; simpl; [exact IH | discriminate].
    + exact IH.
Qed.

(** An object whose declared fields are all valid is valid. *)
Lemma parse_fields_ok path v props shape :
  (forall k field,
      In (k, field) shape ->
      exists x, parse field (path ++ [k]) (prop k v) = inr x) ->
  fst (parse_fields path v props shape) = [].
Proof.
  induction shape as [| [k field] shape IH]; simpl; [reflexivity |].
  intros Hall.
  destruct (Hall k field (or_introl eq_refl)) as [x Hx]. rewrite Hx.
  assert (Hrest : fst (parse_fields path v props shape) = [])
    by (apply IH; intros k' f' Hin; apply Hall; right; exact Hin).
  destruct (parse_fields path v props shape) as [issues out]. exact Hrest.
Qed.

Lemma strict_object_fields_ok path shape props :
  (forall k field,
      In (k, field) shape ->
      exists x, parse field (path ++ [k]) (prop k (JObj props)) = inr x) ->
  exists out,
    parse (ZObject shape strip_keys None) path (JObj props) = inr (JObj out).
Proof.
  intros Hall. rewrite parse_strict_object.
  rewrite (parse_fields_ok path (JObj props) props shape Hall).
  eexists. reflexivity.
Qed.

Lemma strict_object_field_issue path shape props k field i found :
  In (k, field) shape ->
  parse field (path ++ [k]) (prop k (JObj props)) = inl (i :: found) ->
  exists issues,
    parse (ZObject shape strip_keys None) path (JObj props) = inl issues.
Proof.
  intros Hin Hfield. rewrite parse_strict_object.
  pose proof (parse_fields_issue path (JObj props) props shape k field i found
                Hin Hfield) as Hne.
  destruct (fst (parse_fields path (JObj props) props shape)) as [| j js];
    [contradiction |].
  eexists. reflexivity.
Qed.

(** The parsed data of an object schema is an object. *)
Lemma parse_object_result shape unknownKeys rest path v x :
  parse (ZObject shape unknownKeys rest) path v = inr x ->
  exists props, x = JObj props.
Proof.
  destruct v; simpl; try discriminate.
  match goal with
  | |- match ?l with _ => _ end = _ -> _ => destruct l
  end; [intros [= <-]; eexists; reflexivity | discriminate].
Qed.

(** ** The registry *)

(** A tool of either server is found under its own name, and its input
    schema is an object schema that strips undeclared keys. *)
Lemma registered_tool (proc : Process) (server : McpServer)
    (tool : ToolDefinition) :
  In server (servers proc) ->
  In tool (tools server) ->
  find_tool (name tool) (tools server) = Some tool /\
  exists shape, inputSchema tool = ZObject shape strip_keys None.
Proof.
  intros [<- | [<- | []]] Hin.
  - unfold Trading.buildServer in *. rewrite !tools_registerTool in *.
    cbn [new_McpServer tools app In] in *.
    repeat (destruct Hin as [<- | Hin]);
      try (split; [reflexivity | eexists; reflexivity]).
    contradiction.
  - unfold Simple.buildServer in *. rewrite !tools_registerTool in *.
    cbn [new_McpServer tools app In] in *.
    repeat (destruct Hin as [<- | Hin]);
      try (split; [reflexivity | eexists; reflexivity]).
    contradiction.
Qed.

Lemma find_tool_unknown (n : string) (l : list ToolDefinition) :
  ~ In n (map name l) -> find_tool n l = None.
Proof.
  induction l as [| t l IH]; simpl; [reflexivity |].
  intros Hnot. destruct (String.eqb n (name t)) eqn:E.
  - apply String.eqb_eq in E. exfalso. apply Hnot. left. symmetry. exact E.
  - apply IH. intros Hin. apply Hnot. right. exact Hin.
Qed.

(** The catalog is fixed: it does not depend on the process. *)
Lemma trading_tool_names (proc : Process) :
  tool_names (Trading.buildServer proc) = trading_catalog.
Proof.
  unfold tool_names, Trading.buildServer. rewrite !tools_registerTool.
  reflexivity.
Qed.

Lemma simple_tool_names (proc : Process) :
  tool_names (Simple.buildServer proc) = ["getUserBalance"; "placeOrder"].
Proof.
  unfold tool_names, Simple.buildServer. rewrite !tools_registerTool.
  reflexivity.
Qed.

(** Whatever the registry and the handler, a violation of the input schema
    of the tool found under a name is answered without running anything. *)
Lemma invoke_invalid (proc : Process) (server : McpServer)
    (tool : ToolDefinition) (params : JSValue) (issues : list Issue) :
  find_tool (name tool) (tools server) = Some tool ->
  safeParse (inputSchema tool) params = inl issues ->
  invoke proc server (name tool) params =
    ([], Failure InvalidInput (violations (Number_toString proc) issues)).
Proof.
  intros Hfound Hparse. unfold invoke, parse_args.
  rewrite Hfound, Hparse. reflexivity.
Qed.

(** C3.  For every tool of either server and every parameter mapping that
    violates the tool's input schema, the invocation fails with InvalidInput
    carrying the description of the violations, and nothing runs: no
    diagnostic line is written, no exchange client is built or called. *)
Theorem schema_violation_is_InvalidInput :
  forall (proc : Process) (server : McpServer) (tool : ToolDefinition)
         (params : JSValue) (issues : list Issue),
    In server (servers proc) ->
    In tool (tools server) ->
    safeParse (inputSchema tool) params = inl issues ->
    invoke proc server (name tool) params =
      ([], Failure InvalidInput (violations (Number_toString proc) issues)).
Proof.
  intros proc server tool params issues Hserver Htool Hparse.
  destruct (registered_tool proc server tool Hserver Htool) as [Hfound _].
  apply invoke_invalid; assumption.
Qed.

Lemma schema_violation_is_InvalidInput_witness :
  exists (tool : ToolDefinition) (issues : list Issue),
    In (Trading.buildServer trader) (servers trader) /\
    In tool (tools (Trading.buildServer trader)) /\
    name tool = "placeOrder" /\
    safeParse (inputSchema tool) invalid_order = inl issues /\
    invoke trader (Trading.buildServer trader) (name tool) invalid_order =
      ([], Failure InvalidInput (violations (Number_toString trader) issues)).
Proof.
  assert (Hfound : exists tool,
             find_tool "placeOrder" (tools (Trading.buildServer trader))
               = Some tool)
    by (eexists; reflexivity).
  destruct Hfound as [tool Hfound].
  destruct (find_tool_In _ _ _ Hfound) as [Hin Hname].
  assert (Hissues : exists issues,
             safeParse (inputSchema tool) invalid_order = inl issues).
  { vm_compute in Hfound. injection Hfound as <-. eexists. reflexivity. }
  destruct Hissues as [issues Hissues].
  exists tool, issues.
  split; [left; reflexivity |].
  split; [exact Hin |].
  split; [exact Hname |].
  split; [exact Hissues |].
  apply (schema_violation_is_InvalidInput trader (Trading.buildServer trader)
           tool invalid_order issues);
    [left; reflexivity | exact Hin | exact Hissues].
Defined.

(** C7.  An invocation under a name that is not in the catalog of the server
    fails with ToolNotFound, and that failure differs from the InvalidInput
    failure of any schema violation on a tool of the catalog. *)
Theorem unknown_tool_is_ToolNotFound :
  forall (proc : Process) (server : McpServer) (toolName : string)
         (params : JSValue),
    In server (servers proc) ->
    ~ In toolName (tool_names server) ->
    invoke proc server toolName params =
      ([], Failure ToolNotFound (not_found_message proc toolName)) /\
    forall (tool : ToolDefinition) (params' : JSValue) (issues : list Issue),
      In tool (tools server) ->
      safeParse (inputSchema tool) params' = inl issues ->
      exists description,
        snd (invoke proc server (name tool) params')
          = Failure InvalidInput description /\
        snd (invoke proc server (name tool) params')
          <> snd (invoke proc server toolName params).
Proof.
  intros proc server toolName params Hserver Hunknown.
  assert (Hmiss : invoke proc server toolName params =
                    ([], Failure ToolNotFound (not_found_message proc toolName))).
  { unfold invoke. rewrite (find_tool_unknown _ _ Hunknown). reflexivity. }
  split; [exact Hmiss |].
  intros tool params' issues Htool Hparse.
  destruct (registered_tool proc server tool Hserver Htool) as [Hfound _].
  rewrite (invoke_invalid proc server tool params' issues Hfound Hparse), Hmiss.
  eexists. split; [reflexivity | discriminate].
Qed.

Lemma unknown_tool_is_ToolNotFound_witness :
  In (Trading.buildServer trader) (servers trader) /\
  ~ In "withdraw" (tool_names (Trading.buildServer trader)) /\
  invoke trader (Trading.buildServer trader) "withdraw" (JObj []) =
    ([], Failure ToolNotFound (not_found_message trader "withdraw")).
Proof.
  assert (Hunknown : ~ In "withdraw" (tool_names (Trading.buildServer trader))).
  { rewrite trading_tool_names. unfold trading_catalog. cbn [In].
    intros H. repeat (destruct H as [H | H]; [discriminate H |]). exact H. }
  split; [left; reflexivity |]. split; [exact Hunknown |].
  apply (unknown_tool_is_ToolNotFound trader (Trading.buildServer trader)
           "withdraw" (JObj []));
    [left; reflexivity | exact Hunknown].
Defined.

(** ** The page size of [getOrders] and [getUserTrades] *)

(** [z.number().int().positive().max(50).optional()] on an integer between
    1 and 50, and on a number above 50. *)
Lemma limit_in_range (n : Z) (description : string) (path : list string) :
  (1 <= n <= 50)%Z ->
  parse (z.number |> int |> positive |> max 50 |> optional
         |> describe description) path (num n) = inr (num n).
Proof.
  intros [Hlo Hhi]. cbn.
  unfold is_integer, Qle_bool. cbn.
  rewrite Z.mod_1_r. cbn.
  rewrite !Z.mul_1_r.
  destruct (Z.leb_spec n 0); [lia |].
  destruct (Z.leb_spec n 50); [| lia].
  reflexivity.
Qed.

Lemma limit_above_maximum (q : Q) (description : string) (path : list string) :
  (50 < q)%Q ->
  exists i found,
    parse (z.number |> int |> positive |> max 50 |> optional
           |> describe description) path (JNum q) = inl (i :: found).
Proof.
  intros Hq.
  assert (Hmax : Qle_bool q (inject_Z 50) = false).
  { destruct (Qle_bool q (inject_Z 50)) eqn:E; [| reflexivity].
    apply Qle_bool_iff in E. exfalso. apply (Qlt_not_le _ _ Hq). exact E. }
  cbn -[Qle_bool is_integer inject_Z]. rewrite Hmax.
  destruct (is_integer q), (Qle_bool q 0); cbn; eauto.
Qed.

Ltac registered_schema :=
  unfold input_schema_of, Trading.buildServer, Simple.buildServer;
  rewrite !tools_registerTool;
  cbn [new_McpServer tools app find_tool name String.eqb Ascii.eqb Bool.eqb
       inputSchema].

(** The tool registered under each of the two names, with its page-size
    field. *)
Lemma paged_tool (proc : Process) (toolName : string) :
  In toolName ["getOrders"; "getUserTrades"] ->
  exists tool shape description,
    find_tool toolName (tools (Trading.buildServer proc)) = Some tool /\
    name tool = toolName /\
    inputSchema tool = ZObject shape strip_keys None /\
    In ("limit",
        z.number |> int |> positive |> max 50 |> optional
        |> describe description) shape.
Proof.
  intros [<- | [<- | []]];
    unfold Trading.buildServer; rewrite !tools_registerTool;
    cbn [new_McpServer tools app find_tool name String.eqb Ascii.eqb Bool.eqb];
    do 3 eexists;
    (split; [reflexivity | split; [reflexivity | split; [reflexivity |]]]);
    cbn [In]; repeat (first [left; reflexivity | right]).
Qed.

(** C5.  For [getOrders] and [getUserTrades], an integer [limit] between 1
    and 50 passes the validation of the input: as a field, in every
    parameter mapping whose other declared fields are valid, and so in the
    mapping [{limit}]; and a parameter mapping whose [limit] is a number
    above 50 is rejected by the schema with InvalidInput and nothing runs. *)
Theorem limit_at_most_50 :
  forall (proc : Process) (toolName : string),
    In toolName ["getOrders"; "getUserTrades"] ->
    (forall n : Z,
        (1 <= n <= 50)%Z ->
        parse (field_schema
                 (input_schema_of (Trading.buildServer proc) toolName) "limit")
          ["limit"] (num n) = inr (num n) /\
        (forall props : list (string * JSValue),
            arg "limit" props = num n ->
            (forall k field,
                In (k, field)
                  (declared_fields
                     (input_schema_of (Trading.buildServer proc) toolName)) ->
                k <> "limit" ->
                exists x, parse field [k] (arg k props) = inr x) ->
            exists args,
              parse_args (input_schema_of (Trading.buildServer proc) toolName)
                (JObj props) = inr args) /\
        parse_args (input_schema_of (Trading.buildServer proc) toolName)
          (JObj [("limit", num n)]) = inr [("limit", num n)]) /\
    (forall (props : list (string * JSValue)) (q : Q),
        arg "limit" props = JNum q ->
        (50 < q)%Q ->
        exists issues,
          safeParse (input_schema_of (Trading.buildServer proc) toolName)
            (JObj props) = inl issues /\
          invoke proc (Trading.buildServer proc) toolName (JObj props) =
            ([], Failure InvalidInput
                   (violations (Number_toString proc) issues))).
Proof.
  intros proc toolName HtoolName. split.
  - intros n Hn.
    destruct HtoolName as [<- | [<- | []]]; registered_schema;
      (split; [| split]).
    all: try (cbn [field_schema z.object assoc String.eqb Ascii.eqb Bool.eqb];
              apply limit_in_range; exact Hn).
    all: try (unfold parse_args, safeParse, z.object;
              rewrite parse_strict_object;
              cbn -[parse num]; rewrite (limit_in_range n _ _ Hn);
              reflexivity).
    all: intros props Hlimit Hothers;
      unfold parse_args, safeParse, z.object;
      cbn [declared_fields z.object] in Hothers;
      match goal with
      | |- context [parse (ZObject ?shape _ _) _ _] =>
          destruct (strict_object_fields_ok [] shape props) as [out Hout]
      end;
      [ intros k field Hin; cbn [app];
        destruct (string_dec k "limit") as [-> | Hother];
        [ cbn [In] in Hin;
          repeat (destruct Hin as [Hin | Hin];
                  [ first [ discriminate Hin
                          | injection Hin as <-;
                            fold (arg "limit" props); rewrite Hlimit;
                            eexists; apply limit_in_range; exact Hn ] |]);
          contradiction
        | apply Hothers; assumption ]
      | rewrite Hout; eexists; reflexivity ].
  - intros props q Hlimit Hq.
    destruct (paged_tool proc toolName HtoolName)
      as (tool & shape & description & Hfound & Hname & Hschema & Hfield).
    destruct (limit_above_maximum q description ([] ++ ["limit"]) Hq)
      as (i & found & Hparse).
    unfold arg in Hlimit. rewrite <- Hlimit in Hparse.
    destruct (strict_object_field_issue [] shape props "limit" _ i found
                Hfield Hparse) as [issues Hissues].
    exists issues. unfold input_schema_of. rewrite Hfound, Hschema.
    split; [exact Hissues |].
    rewrite <- Hname. apply invoke_invalid.
    + rewrite Hname. exact Hfound.
    + rewrite Hschema. exact Hissues.
Qed.

Lemma limit_at_most_50_witness :
  In "getOrders" ["getOrders"; "getUserTrades"] /\
  (1 <= 50 <= 50)%Z /\
  parse_args (input_schema_of (Trading.buildServer trader) "getOrders")
    (JObj [("limit", num 50)]) = inr [("limit", num 50)] /\
  arg "limit" [("limit", num 51)] = JNum (inject_Z 51) /\
  (50 < inject_Z 51)%Q /\
  exists issues,
    safeParse (input_schema_of (Trading.buildServer trader) "getOrders")
      (JObj [("limit", num 51)]) = inl issues /\
    invoke trader (Trading.buildServer trader) "getOrders"
      (JObj [("limit", num 51)]) =
      ([], Failure InvalidInput (violations (Number_toString trader) issues)).
Proof.
  destruct (limit_at_most_50 trader "getOrders" (or_introl eq_refl))
    as [Haccept Hreject].
  split; [left; reflexivity |].
  split; [lia |].
  split; [apply (Haccept 50%Z); lia |].
  split; [reflexivity |].
  split; [reflexivity |].
  apply (Hreject [("limit", num 51)] (inject_Z 51)); reflexivity.
Defined.

(** ** The handlers behind the registry's entry point *)

(** The four kinds of violation on the parameters of the trading server's
    [placeOrder]: a required field that is missing, a value of the wrong
    type, a value outside an enumeration, a number that is not positive. *)
Lemma placeOrder_schema_violations (proc : Process)
    (props : list (string * JSValue)) :
  arg "symbol" props = JUndefined \/
  (exists s, arg "size" props = JStr s) \/
  (exists s, arg "side" props = JStr s /\ s <> "buy" /\ s <> "sell") \/
  (exists q, arg "size" props = JNum q /\ (q <= 0)%Q) ->
  exists issues,
    safeParse (input_schema_of (Trading.buildServer proc) "placeOrder")
      (JObj props) = inl issues /\
    invoke proc (Trading.buildServer proc) "placeOrder" (JObj props) =
      ([], Failure InvalidInput (violations (Number_toString proc) issues)).
Proof.
  intros Hbad.
  assert (Hfound : exists tool shape,
             find_tool "placeOrder" (tools (Trading.buildServer proc))
               = Some tool /\
             name tool = "placeOrder" /\
             inputSchema tool = ZObject shape strip_keys None /\
             shape = declared_fields
                       (input_schema_of (Trading.buildServer proc) "placeOrder")).
  { unfold input_schema_of, Trading.buildServer. rewrite !tools_registerTool.
    cbn [new_McpServer tools app find_tool name String.eqb Ascii.eqb Bool.eqb].
    do 2 eexists. repeat split; reflexivity. }
  destruct Hfound as (tool & shape & Hfound & Hname & Hschema & Hshape).
  assert (Hissues : exists issues,
             parse (ZObject shape strip_keys None) [] (JObj props) = inl issues).
  { subst shape. registered_schema. cbn [declared_fields z.object inputSchema].
    unfold arg in Hbad.
    destruct Hbad as [Hsym | [[s Hsize] | [(s & Hside & Hbuy & Hsell) | (q & Hsize & Hq)]]].
    - eapply (strict_object_field_issue [] _ props "symbol");
        [left; reflexivity |].
      rewrite Hsym. reflexivity.
    - eapply (strict_object_field_issue [] _ props "size");
        [do 2 right; left; reflexivity |].
      rewrite Hsize. reflexivity.
    - eapply (strict_object_field_issue [] _ props "side");
        [right; left; reflexivity |].
      rewrite Hside. cbn.
      apply String.eqb_neq in Hbuy, Hsell. rewrite Hbuy, Hsell. reflexivity.
    - eapply (strict_object_field_issue [] _ props "size");
        [do 2 right; left; reflexivity |].
      rewrite Hsize. cbn -[Qle_bool].
      apply Qle_bool_iff in Hq. rewrite Hq. reflexivity. }
  destruct Hissues as [issues Hissues].
  exists issues. unfold input_schema_of. rewrite Hfound, Hschema.
  split; [exact Hissues |].
  rewrite <- Hname. apply invoke_invalid.
  - rewrite Hname. exact Hfound.
  - rewrite Hschema. exact Hissues.
Qed.

(** Through the entry point, a limit order that is valid but names no price
    is refused with the price error, in both servers. *)
Lemma invoke_placeOrder_limit_without_price (proc : Process)
    (params : JSValue) (args : Args) :
  arg "type" args = JStr "limit" ->
  arg "price" args = JUndefined ->
  (parse_args (input_schema_of (Trading.buildServer proc) "placeOrder") params
     = inr args ->
   snd (invoke proc (Trading.buildServer proc) "placeOrder" params)
     = Failure InvalidInput "price is required for limit orders") /\
  (parse_args (input_schema_of (Simple.buildServer proc) "placeOrder") params
     = inr args ->
   snd (invoke proc (Simple.buildServer proc) "placeOrder" params)
     = Failure InvalidInput "price is required for limit orders").
Proof.
  intros Htype Hprice.
  assert (Hlimit : is_string "limit" (arg "type" args) = true)
    by (apply is_string_true; exact Htype).
  assert (Hfalsy : truthy (arg "price" args) = false)
    by (rewrite Hprice; reflexivity).
  destruct (trading_placeOrder_rejects proc args Hlimit Hfalsy) as [l1 E1].
  destruct (simple_placeOrder_rejects proc args Hlimit Hfalsy) as [l2 E2].
  split; registered_schema; intros Hargs; unfold invoke;
    unfold Trading.buildServer, Simple.buildServer;
    rewrite !tools_registerTool;
    cbn [new_McpServer tools app find_tool name String.eqb Ascii.eqb Bool.eqb
         inputSchema handler];
    rewrite Hargs, ?E1, ?E2; reflexivity.
Qed.

(** The concrete scenario through the entry point of the trading server:
    the input passes the input schema unchanged, and the order passes the
    output schema. *)
Lemma invoke_order_scenario_succeeds (proc : Process) :
  credentials_missing proc = false ->
  (forall client a, hollaex proc client "createOrder" a = inr scenario_order) ->
  snd (invoke proc (Trading.buildServer proc) "placeOrder"
         (JObj scenario_input))
    = Success (formatResponse "Placed order 123" scenario_order).
Proof.
  intros Hcred Hcall.
  destruct (trading_placeOrder_accepted proc scenario_input scenario_order
              Hcred eq_refl Hcall eq_refl) as (line & opts & Hrun).
  unfold invoke, Trading.buildServer. rewrite !tools_registerTool.
  cbn [new_McpServer tools app find_tool name String.eqb Ascii.eqb Bool.eqb
       inputSchema outputSchema handler].
  change (parse_args _ (JObj scenario_input))
    with (@inr (list Issue) Args scenario_input).
  cbv beta iota. rewrite Hrun. reflexivity.
Qed.

(** ** The runs of the handlers *)

Lemma pass_on_run (proc : Process) (method : string) (a : list JSValue)
    (summary : string) :
  handler_run proc method (pass_on proc method a summary).
Proof.
  unfold pass_on.
  destruct (credentials_missing proc) eqn:Hcred.
  - rewrite (starts_with_makeClient proc _ Hcred).
    apply refused; [reflexivity | left; split; [reflexivity | exact Hcred]].
  - rewrite (makeClient_present proc Hcred). unfold bind at 1.
    destruct (hollaex proc (client_options proc) method a) as [reason | payload]
      eqn:Hcall.
    + rewrite (await_call_rejected proc _ _ _ _ Hcall).
      apply (rejected proc method [] [] a reason); auto.
    + rewrite (await_call_resolved proc _ _ _ _ Hcall).
      apply (answered proc method [] [] a payload summary); auto.
Qed.

Lemma cancelOrder_run (proc : Process) (args : Args) :
  handler_run proc "cancelOrder" (Trading.cancelOrder proc args).
Proof.
  unfold Trading.cancelOrder.
  destruct (credentials_missing proc) eqn:Hcred.
  - rewrite (makeClient_missing proc Hcred).
    apply refused; [reflexivity | left; split; [reflexivity | exact Hcred]].
  - rewrite (makeClient_present proc Hcred).
    destruct (hollaex proc (client_options proc) "cancelOrder"
                [arg "orderId" args]) as [reason | payload] eqn:Hcall.
    + unfold try_catch, bind, emit, ret, throw.
      rewrite (await_call_rejected proc _ _ _ _ Hcall).
      apply (rejected proc "cancelOrder" [_] [_] _ reason); auto.
    + unfold try_catch, bind, emit, ret, throw.
      rewrite (await_call_resolved proc _ _ _ _ Hcall).
      apply (answered proc "cancelOrder" [_] [] _ payload); auto.
Qed.

Lemma trading_placeOrder_run (proc : Process) (args : Args) :
  handler_run proc "createOrder" (Trading.placeOrder proc args).
Proof.
  unfold Trading.placeOrder.
  destruct (is_string "limit" (arg "type" args)
            && negb (truthy (arg "price" args))) eqn:Hcheck.
  { apply refused; [reflexivity | right; split; reflexivity]. }
  destruct (credentials_missing proc) eqn:Hcred.
  { rewrite (makeClient_missing proc Hcred).
    apply refused; [reflexivity | left; split; [reflexivity | exact Hcred]]. }
  rewrite (makeClient_present proc Hcred).
  unfold try_catch, bind, emit, ret, throw.
  match goal with
  | |- context [await_call proc ?c ?m ?a] =>
      destruct (hollaex proc c m a) as [reason | payload] eqn:Hcall;
      [ rewrite (await_call_rejected proc c m a reason Hcall)
      | rewrite (await_call_resolved proc c m a payload Hcall) ]
  end.
  - apply (rejected proc "createOrder" [_] [_] _ reason); auto.
  - destruct (nullish payload) eqn:Hnull.
    + destruct payload; try discriminate Hnull; simpl.
      * eapply (broken proc "createOrder" [_] [_] _ JUndefined); eauto.
      * eapply (broken proc "createOrder" [_] [_] _ JNull); eauto.
    + rewrite (member_defined payload "id" Hnull). unfold ret.
      apply (answered proc "createOrder" [_] [_] _ payload); auto.
Qed.

Lemma simple_placeOrder_run (proc : Process) (args : Args) :
  handler_run proc "createOrder" (Simple.placeOrder proc args).
Proof.
  unfold Simple.placeOrder.
  destruct (is_string "limit" (arg "type" args)
            && negb (truthy (arg "price" args))) eqn:Hcheck.
  { apply refused; [reflexivity | right; split; reflexivity]. }
  destruct (credentials_missing proc) eqn:Hcred.
  { rewrite (makeClient_missing proc Hcred).
    apply refused; [reflexivity | left; split; [reflexivity | exact Hcred]]. }
  rewrite (makeClient_present proc Hcred).
  unfold try_catch, bind, emit, ret, throw.
  match goal with
  | |- context [await_call proc ?c ?m ?a] =>
      destruct (hollaex proc c m a) as [reason | payload] eqn:Hcall;
      [ rewrite (await_call_rejected proc c m a reason Hcall)
      | rewrite (await_call_resolved proc c m a payload Hcall) ]
  end.
  - apply (rejected proc "createOrder" [_] [_] _ reason); auto.
  - destruct (nullish payload) eqn:Hnull.
    + destruct payload; try discriminate Hnull; simpl.
      * eapply (broken proc "createOrder" [_] [_] _ JUndefined); eauto.
      * eapply (broken proc "createOrder" [_] [_] _ JNull); eauto.
    + rewrite (member_defined payload "id" Hnull). unfold ret.
      apply (answered proc "createOrder" [_] [_] _ payload
               ("Placed order " ++ str proc (prop "id" payload))); auto.
Qed.

(** Every handler of both servers runs in one of the four shapes, on the
    method of the exchange client that goes with its tool. *)
Lemma every_handler_run (proc : Process) (tool : ToolDefinition)
    (args : Args) :
  In tool (tools (Trading.buildServer proc) ++ tools (Simple.buildServer proc)) ->
  handler_run proc (method_of (name tool)) (handler tool args).
Proof.
  intros Hin.
  unfold Trading.buildServer, Simple.buildServer in Hin.
  rewrite !tools_registerTool in Hin.
  cbn [new_McpServer tools app In] in Hin.
  repeat (destruct Hin as [<- | Hin]); [.. | contradiction];
    cbn [handler name]; unfold method_of;
    cbn [String.eqb Ascii.eqb Bool.eqb];
    first
      [ apply trading_placeOrder_run
      | apply simple_placeOrder_run
      | apply cancelOrder_run
      | apply pass_on_run ].
Qed.

Lemma delegate_events_around (before after : list Event) (e1 e2 : Event) :
  delegate_events before = [] ->
  delegate_events after = [] ->
  is_delegate_event e1 = true ->
  is_delegate_event e2 = true ->
  delegate_events (before ++ e1 :: e2 :: after) = [e1; e2].
Proof.
  intros Hb Ha H1 H2. unfold delegate_events in *.
  rewrite filter_app, Hb. simpl. rewrite H1, H2, Ha. reflexivity.
Qed.

(** X1.  Whatever the process and the arguments, a handler of either server
    uses the exchange at most once: either it does not touch it at all, or
    it builds one client from the process-wide configuration and makes one
    call on it, to the method that goes with the tool. *)
Theorem handlers_use_the_exchange_at_most_once :
  forall (proc : Process) (tool : ToolDefinition) (args : Args),
    In tool (tools (Trading.buildServer proc)
             ++ tools (Simple.buildServer proc)) ->
    delegate_events (trace (handler tool args)) = [] \/
    exists a,
      delegate_events (trace (handler tool args)) =
        [new_hollaex (client_options proc);
         client_call (method_of (name tool)) a].
Proof.
  intros proc tool args Hin.
  destruct (every_handler_run proc tool args Hin)
    as [lines e Hlines _
       | before after a reason Hb Ha _ _
       | before after a payload summary Hb Ha _ _
       | before after a payload e Hb Ha _ _ _ _ _];
    unfold trace; cbn [fst].
  - left. exact Hlines.
  - right. exists a. apply delegate_events_around; auto.
  - right. exists a. apply delegate_events_around; auto.
  - right. exists a. apply delegate_events_around; auto.
Qed.

Lemma trading_tool_registered (proc : Process) (n : string)
    (tool : ToolDefinition) :
  find_tool n (tools (Trading.buildServer proc)) = Some tool ->
  In tool (tools (Trading.buildServer proc) ++ tools (Simple.buildServer proc)).
Proof.
  intros H. apply in_or_app. left. apply (find_tool_In _ _ _ H).
Qed.

Lemma handlers_use_the_exchange_at_most_once_witness :
  exists tool,
    find_tool "getTicker" (tools (Trading.buildServer trader)) = Some tool /\
    (delegate_events (trace (handler tool [("symbol", JStr "btc-usdt")])) = [] \/
     exists a,
       delegate_events (trace (handler tool [("symbol", JStr "btc-usdt")])) =
         [new_hollaex (client_options trader);
          client_call (method_of (name tool)) a]).
Proof.
  assert (Hfound : exists tool,
             find_tool "getTicker" (tools (Trading.buildServer trader))
               = Some tool) by (eexists; reflexivity).
  destruct Hfound as [tool Hfound]. exists tool. split; [exact Hfound |].
  apply (handlers_use_the_exchange_at_most_once trader tool).
  apply (trading_tool_registered trader "getTicker"). exact Hfound.
Defined.

(** Only [placeOrder] goes through [createOrder]. *)
Lemma createOrder_is_placeOrder (proc : Process) (tool : ToolDefinition) :
  In tool (tools (Trading.buildServer proc) ++ tools (Simple.buildServer proc)) ->
  method_of (name tool) = "createOrder" ->
  name tool = "placeOrder".
Proof.
  intros Hin.
  unfold Trading.buildServer, Simple.buildServer in Hin.
  rewrite !tools_registerTool in Hin.
  cbn [new_McpServer tools app In] in Hin.
  repeat (destruct Hin as [<- | Hin]); [.. | contradiction];
    cbn; intros H; first [reflexivity | discriminate H].
Qed.

(** X2.  With the credentials configured, when the exchange rejects the
    call of a handler, the handler fails with UpstreamError and the very
    reason the exchange gave; the one exception is [placeOrder] refusing a
    limit order for its missing price, before any call. *)
Theorem upstream_rejection_is_reported_unchanged :
  forall (proc : Process) (tool : ToolDefinition) (args : Args)
         (reason : string),
    In tool (tools (Trading.buildServer proc)
             ++ tools (Simple.buildServer proc)) ->
    credentials_missing proc = false ->
    (forall a,
        hollaex proc (client_options proc) (method_of (name tool)) a
          = inl reason) ->
    outcome (handler tool args) <> inl price_required ->
    outcome (handler tool args)
      = inl {| kind := UpstreamError; message := reason |}.
Proof.
  intros proc tool args reason Hin Hcred Hreject Hprice.
  destruct (every_handler_run proc tool args Hin)
    as [lines e _ [[-> Hmissing] | [-> _]]
       | before after a reason' _ _ _ Hcall
       | before after a payload summary _ _ _ Hcall
       | before after a payload e _ _ _ Hcall _ _ _];
    unfold outcome in *; cbn [snd] in *.
  - rewrite Hcred in Hmissing. discriminate Hmissing.
  - exfalso. apply Hprice. reflexivity.
  - rewrite Hreject in Hcall. injection Hcall as <-. reflexivity.
  - rewrite Hreject in Hcall. discriminate Hcall.
  - rewrite Hreject in Hcall. discriminate Hcall.
Qed.

Lemma upstream_rejection_is_reported_unchanged_witness :
  exists tool,
    find_tool "cancelOrder" (tools (Trading.buildServer rejecting))
      = Some tool /\
    credentials_missing rejecting = false /\
    outcome (handler tool [("orderId", JStr "42")])
      = inl {| kind := UpstreamError; message := "Insufficient balance" |}.
Proof.
  assert (Hfound : exists tool,
             find_tool "cancelOrder" (tools (Trading.buildServer rejecting))
               = Some tool /\
             outcome (handler tool [("orderId", JStr "42")])
               <> inl price_required)
    by (eexists; split; [reflexivity | discriminate]).
  destruct Hfound as (tool & Hfound & Hprice). exists tool.
  split; [exact Hfound |]. split; [reflexivity |].
  apply (upstream_rejection_is_reported_unchanged rejecting tool
           [("orderId", JStr "42")] "Insufficient balance").
  - apply (trading_tool_registered rejecting "cancelOrder"). exact Hfound.
  - reflexivity.
  - intros a. reflexivity.
  - exact Hprice.
Defined.

(** X3.  A handler that succeeds has made its call, and its result is the
    answer of the exchange to that call, unmodified, as structured content,
    with one text item beside it. *)
Theorem success_carries_the_answer_unmodified :
  forall (proc : Process) (tool : ToolDefinition) (args : Args)
         (result : ToolResult),
    In tool (tools (Trading.buildServer proc)
             ++ tools (Simple.buildServer proc)) ->
    outcome (handler tool args) = inr result ->
    exists a summary,
      In (client_call (method_of (name tool)) a) (trace (handler tool args)) /\
      hollaex proc (client_options proc) (method_of (name tool)) a
        = inr (structuredContent result) /\
      content result = [ {| type := "text"; text := summary |} ].
Proof.
  intros proc tool args result Hin Hout.
  destruct (every_handler_run proc tool args Hin)
    as [lines e _ _
       | before after a reason' _ _ _ Hcall
       | before after a payload summary _ _ _ Hcall
       | before after a payload e _ _ _ Hcall _ _ _];
    unfold outcome, trace in *; cbn [fst snd] in *; try discriminate Hout.
  injection Hout as <-. exists a, summary.
  split; [| split; [exact Hcall | reflexivity]].
  apply in_or_app. right. right. left. reflexivity.
Qed.

Lemma success_carries_the_answer_unmodified_witness :
  exists tool,
    find_tool "getOrders" (tools (Trading.buildServer trader)) = Some tool /\
    outcome (handler tool [("limit", num 10)])
      = inr (formatResponse "Fetched orders." scenario_order) /\
    exists a summary,
      In (client_call (method_of (name tool)) a)
        (trace (handler tool [("limit", num 10)])) /\
      hollaex trader (client_options trader) (method_of (name tool)) a
        = inr scenario_order /\
      content (formatResponse "Fetched orders." scenario_order)
        = [ {| type := "text"; text := summary |} ].
Proof.
  assert (Hfound : exists tool,
             find_tool "getOrders" (tools (Trading.buildServer trader))
               = Some tool /\
             outcome (handler tool [("limit", num 10)])
               = inr (formatResponse "Fetched orders." scenario_order))
    by (eexists; split; reflexivity).
  destruct Hfound as (tool & Hfound & Hout). exists tool.
  split; [exact Hfound |]. split; [exact Hout |].
  apply (success_carries_the_answer_unmodified trader tool
           [("limit", num 10)]
           (formatResponse "Fetched orders." scenario_order)).
  - apply (trading_tool_registered trader "getOrders"). exact Hfound.
  - exact Hout.
Defined.

(** X4.  The failures of a handler are of four kinds and no other:
    MissingCredentials, when the credentials are missing, and InvalidInput
    for the price of a limit order, from [placeOrder] only, both before any
    use of the exchange; UpstreamError with the reason of the exchange for
    the call made; InternalError, from [placeOrder] only, when the exchange
    answered its call with null or undefined. *)
Theorem failures_of_a_handler :
  forall (proc : Process) (tool : ToolDefinition) (args : Args)
         (e : Exception),
    In tool (tools (Trading.buildServer proc)
             ++ tools (Simple.buildServer proc)) ->
    outcome (handler tool args) = inl e ->
    (e = missing_credentials /\ credentials_missing proc = true /\
     delegate_events (trace (handler tool args)) = []) \/
    (e = price_required /\ name tool = "placeOrder" /\
     delegate_events (trace (handler tool args)) = []) \/
    (kind e = UpstreamError /\
     exists a,
       In (client_call (method_of (name tool)) a) (trace (handler tool args)) /\
       hollaex proc (client_options proc) (method_of (name tool)) a
         = inl (message e)) \/
    (kind e = InternalError /\ name tool = "placeOrder" /\
     exists a payload,
       In (client_call "createOrder" a) (trace (handler tool args)) /\
       hollaex proc (client_options proc) "createOrder" a = inr payload /\
       nullish payload = true).
Proof.
  intros proc tool args e Hin Hout.
  pose proof (createOrder_is_placeOrder proc tool Hin) as Hplace.
  destruct (every_handler_run proc tool args Hin)
    as [lines e' Hlines [[-> Hmissing] | [-> Hmethod]]
       | before after a reason' _ _ _ Hcall
       | before after a payload summary _ _ _ Hcall
       | before after a payload e' _ _ _ Hcall Hnull Hkind Hmethod];
    unfold outcome, trace in *; cbn [fst snd] in *;
    try discriminate Hout; injection Hout as <-.
  - left. auto.
  - right. left. auto.
  - right. right. left. split; [reflexivity |]. exists a.
    split; [| exact Hcall].
    apply in_or_app. right. right. left. reflexivity.
  - right. right. right. split; [exact Hkind |]. split; [auto |].
    rewrite Hmethod in *. exists a, payload.
    split; [| split; [exact Hcall | exact Hnull]].
    apply in_or_app. right. right. left. reflexivity.
Qed.

Lemma failures_of_a_handler_witness :
  exists tool,
    find_tool "placeOrder" (tools (Trading.buildServer answering_null))
      = Some tool /\
    exists e,
      outcome (handler tool market_order) = inl e /\
      kind e = InternalError /\ name tool = "placeOrder".
Proof.
  assert (Hfound : exists tool e,
             find_tool "placeOrder" (tools (Trading.buildServer answering_null))
               = Some tool /\
             outcome (handler tool market_order) = inl e /\
             kind e = InternalError)
    by (do 2 eexists; split; [reflexivity | split; reflexivity]).
  destruct Hfound as (tool & e & Hfound & Hout & Hkind).
  exists tool. split; [exact Hfound |]. exists e. split; [exact Hout |].
  destruct (failures_of_a_handler answering_null tool market_order e
              (trading_tool_registered answering_null "placeOrder" tool Hfound)
              Hout)
    as [(-> & _) | [(-> & _) | [(Hup & _) | (Hint & Hname & _)]]].
  - discriminate Hkind.
  - discriminate Hkind.
  - rewrite Hkind in Hup. discriminate Hup.
  - split; [exact Hint | exact Hname].
Defined.

(** ** [placeOrder]: what is sent to the exchange *)

Lemma member_nullish (v : JSValue) (k : string) :
  nullish v = true ->
  exists e, member v k = throw e /\ kind e = InternalError.
Proof.
  destruct v; simpl; intros H; try discriminate H;
    eexists; split; reflexivity.
Qed.

(** The calls of the trading server's [placeOrder]: none, or the one
    [createOrder] with the arguments the handler computes. *)
Lemma trading_placeOrder_call (proc : Process) (args : Args) (m : string)
    (a : list JSValue) :
  In (client_call m a) (trace (Trading.placeOrder proc args)) ->
  m = "createOrder" /\
  is_string "limit" (arg "type" args) && negb (truthy (arg "price" args))
    = false /\
  a = [arg "symbol" args; arg "side" args; arg "size" args; arg "type" args;
       if is_string "limit" (arg "type" args) then arg "price" args else num 0;
       nonempty_or_undefined
         ((if negb (is_undefined (arg "stop" args))
           then [("stop", arg "stop" args)] else [])
          ++ (if truthy (arg "meta" args)
              then [("meta", arg "meta" args)] else []))].
Proof.
  unfold Trading.placeOrder.
  destruct (is_string "limit" (arg "type" args)
            && negb (truthy (arg "price" args))) eqn:Hcheck.
  { cbn. intros [H | [H | []]]; discriminate H. }
  destruct (credentials_missing proc) eqn:Hcred.
  { rewrite (makeClient_missing proc Hcred).
    cbn. intros [H | [H | []]]; discriminate H. }
  rewrite (makeClient_present proc Hcred).
  unfold try_catch, bind, emit, ret, throw.
  match goal with
  | |- context [await_call proc ?c ?m ?a] =>
      destruct (hollaex proc c m a) as [reason | payload] eqn:Hcall;
      [ rewrite (await_call_rejected proc c m a reason Hcall)
      | rewrite (await_call_resolved proc c m a payload Hcall) ]
  end.
  - cbn. intros [H | [H | [H | [H | []]]]]; try discriminate H.
    injection H as <- <-. auto.
  - destruct (nullish payload) eqn:Hnull.
    + destruct (member_nullish payload "id" Hnull) as (e & -> & _).
      cbn. intros [H | [H | [H | [H | []]]]]; try discriminate H.
      injection H as <- <-. auto.
    + rewrite (member_defined payload "id" Hnull).
      cbn. intros [H | [H | [H | [H | []]]]]; try discriminate H.
      injection H as <- <-. auto.
Qed.

Lemma simple_placeOrder_call (proc : Process) (args : Args) (m : string)
    (a : list JSValue) :
  In (client_call m a) (trace (Simple.placeOrder proc args)) ->
  m = "createOrder" /\
  is_string "limit" (arg "type" args) && negb (truthy (arg "price" args))
    = false /\
  a = [arg "symbol" args; arg "side" args; arg "size" args; arg "type" args;
       if is_string "limit" (arg "type" args) then arg "price" args
       else JUndefined].
Proof.
  unfold Simple.placeOrder.
  destruct (is_string "limit" (arg "type" args)
            && negb (truthy (arg "price" args))) eqn:Hcheck.
  { cbn. intros [H | [H | []]]; discriminate H. }
  destruct (credentials_missing proc) eqn:Hcred.
  { rewrite (makeClient_missing proc Hcred).
    cbn. intros [H | [H | []]]; discriminate H. }
  rewrite (makeClient_present proc Hcred).
  unfold try_catch, bind, emit, ret, throw.
  match goal with
  | |- context [await_call proc ?c ?m ?a] =>
      destruct (hollaex proc c m a) as [reason | payload] eqn:Hcall;
      [ rewrite (await_call_rejected proc c m a reason Hcall)
      | rewrite (await_call_resolved proc c m a payload Hcall) ]
  end.
  - cbn. intros [H | [H | [H | [H | []]]]]; try discriminate H.
    injection H as <- <-. auto.
  - destruct (nullish payload) eqn:Hnull.
    + destruct (member_nullish payload "id" Hnull) as (e & -> & _).
      cbn. intros [H | [H | [H | [H | []]]]]; try discriminate H.
      injection H as <- <-. auto.
    + rewrite (member_defined payload "id" Hnull).
      cbn. intros [H | [H | [H | [H | []]]]]; try discriminate H.
      injection H as <- <-. auto.
Qed.

(** X5.  The price [placeOrder] sends to [createOrder], its fifth argument:
    for a limit order the price given, which is then a usable one; for any
    other order the trading server sends 0 and the two-tool server
    [undefined], whatever price was given. *)
Theorem price_sent_to_createOrder :
  forall (proc : Process) (args : Args) (m : string) (a : list JSValue),
    (In (client_call m a) (trace (Trading.placeOrder proc args)) ->
     (arg "type" args = JStr "limit" ->
      nth 4 a JNull = arg "price" args /\ truthy (arg "price" args) = true) /\
     (arg "type" args <> JStr "limit" -> nth 4 a JNull = num 0)) /\
    (In (client_call m a) (trace (Simple.placeOrder proc args)) ->
     (arg "type" args = JStr "limit" ->
      nth 4 a JNull = arg "price" args /\ truthy (arg "price" args) = true) /\
     (arg "type" args <> JStr "limit" -> nth 4 a JNull = JUndefined)).
Proof.
  intros proc args m a. split; intros Hin.
  - destruct (trading_placeOrder_call proc args m a Hin) as (_ & Hcheck & ->).
    split.
    + intros Htype. apply is_string_true in Htype. rewrite Htype in *.
      cbn [nth]. split; [reflexivity |].
      destruct (truthy (arg "price" args)); [reflexivity | discriminate Hcheck].
    + intros Htype. cbn [nth].
      destruct (is_string "limit" (arg "type" args)) eqn:E; [| reflexivity].
      apply is_string_true in E. contradiction.
  - destruct (simple_placeOrder_call proc args m a Hin) as (_ & Hcheck & ->).
    split.
    + intros Htype. apply is_string_true in Htype. rewrite Htype in *.
      cbn [nth]. split; [reflexivity |].
      destruct (truthy (arg "price" args)); [reflexivity | discriminate Hcheck].
    + intros Htype. cbn [nth].
      destruct (is_string "limit" (arg "type" args)) eqn:E; [| reflexivity].
      apply is_string_true in E. contradiction.
Qed.

Lemma price_sent_to_createOrder_witness :
  exists a,
    In (client_call "createOrder" a)
      (trace (Trading.placeOrder trader market_order_with_price)) /\
    arg "type" market_order_with_price <> JStr "limit" /\
    arg "price" market_order_with_price = num 9000 /\
    nth 4 a JNull = num 0.
Proof.
  assert (Hcall : exists a,
             In (client_call "createOrder" a)
               (trace (Trading.placeOrder trader market_order_with_price)))
    by (eexists; cbn; right; right; left; reflexivity).
  destruct Hcall as [a Hcall]. exists a.
  split; [exact Hcall |].
  assert (Htype : arg "type" market_order_with_price <> JStr "limit")
    by discriminate.
  split; [exact Htype |]. split; [reflexivity |].
  destruct (price_sent_to_createOrder trader market_order_with_price
              "createOrder" a) as [Htrading _].
  destruct (Htrading Hcall) as [_ Hmarket]. exact (Hmarket Htype).
Defined.

(** X6.  The options the trading server's [placeOrder] sends to
    [createOrder], its sixth argument: [undefined] exactly when no stop is
    given and [meta] is not a usable value; otherwise an object that
    carries the stop as given, [meta] when it is usable, and nothing else. *)
Theorem options_sent_to_createOrder :
  forall (proc : Process) (args : Args) (m : string) (a : list JSValue),
    In (client_call m a) (trace (Trading.placeOrder proc args)) ->
    (nth 5 a JNull = JUndefined <->
     arg "stop" args = JUndefined /\ truthy (arg "meta" args) = false) /\
    prop "stop" (nth 5 a JNull) = arg "stop" args /\
    prop "meta" (nth 5 a JNull)
      = (if truthy (arg "meta" args) then arg "meta" args else JUndefined) /\
    (forall k, k <> "stop" -> k <> "meta" ->
               prop k (nth 5 a JNull) = JUndefined).
Proof.
  intros proc args m a Hin.
  destruct (trading_placeOrder_call proc args m a Hin) as (_ & _ & ->).
  cbn [nth].
  destruct (arg "stop" args) eqn:Hstop; destruct (truthy (arg "meta" args));
    cbn;
    (split; [split; [intros H; try discriminate H; auto
                    | intros [H1 H2]; try discriminate H1;
                      try discriminate H2; reflexivity] |]);
    (split; [reflexivity |]); (split; [reflexivity |]);
    intros k Hk1 Hk2;
    apply String.eqb_neq in Hk1, Hk2; rewrite ?Hk1, ?Hk2; reflexivity.
Qed.

Lemma options_sent_to_createOrder_witness :
  exists a,
    In (client_call "createOrder" a)
      (trace (Trading.placeOrder trader market_order_with_price)) /\
    prop "stop" (nth 5 a JNull) = num 8500 /\
    prop "meta" (nth 5 a JNull) = JObj [("note", JStr "hedge")].
Proof.
  assert (Hcall : exists a,
             In (client_call "createOrder" a)
               (trace (Trading.placeOrder trader market_order_with_price)))
    by (eexists; cbn; right; right; left; reflexivity).
  destruct Hcall as [a Hcall]. exists a.
  split; [exact Hcall |].
  destruct (options_sent_to_createOrder trader market_order_with_price
              "createOrder" a Hcall) as (_ & Hstop & Hmeta & _).
  split; [exact Hstop | exact Hmeta].
Defined.

(** X7.  When the exchange answers [createOrder] with null or undefined,
    [placeOrder] has sent the order, once, and then fails: with an
    InternalError, which it writes to the diagnostic stream.  In both
    versions of the server. *)
Theorem placeOrder_fails_on_an_empty_answer :
  forall (proc : Process) (args : Args) (payload : JSValue),
    credentials_missing proc = false ->
    is_string "limit" (arg "type" args) && negb (truthy (arg "price" args))
      = false ->
    (forall client a, hollaex proc client "createOrder" a = inr payload) ->
    nullish payload = true ->
    (exists e a,
        outcome (Trading.placeOrder proc args) = inl e /\
        kind e = InternalError /\
        calls "createOrder" (trace (Trading.placeOrder proc args))
          = [client_call "createOrder" a] /\
        In (console_error "placeOrder error" (Some e))
          (trace (Trading.placeOrder proc args))) /\
    (exists e a,
        outcome (Simple.placeOrder proc args) = inl e /\
        kind e = InternalError /\
        calls "createOrder" (trace (Simple.placeOrder proc args))
          = [client_call "createOrder" a] /\
        In (console_error "placeOrder error" (Some e))
          (trace (Simple.placeOrder proc args))).
Proof.
  intros proc args payload Hcred Hcheck Hcall Hnull.
  destruct (member_nullish payload "id" Hnull) as (e & Hmember & Hkind).
  split.
  - unfold Trading.placeOrder.
    rewrite Hcheck, (makeClient_present proc Hcred).
    unfold await_call, try_catch, bind, emit, ret, throw.
    rewrite Hcall, Hmember. unfold throw.
    exists e. eexists. cbn.
    split; [reflexivity | split; [exact Hkind | split; [reflexivity |]]].
    do 3 right. left. reflexivity.
  - unfold Simple.placeOrder.
    rewrite Hcheck, (makeClient_present proc Hcred).
    unfold await_call, try_catch, bind, emit, ret, throw.
    rewrite Hcall, Hmember. unfold throw.
    exists e. eexists. cbn.
    split; [reflexivity | split; [exact Hkind | split; [reflexivity |]]].
    do 3 right. left. reflexivity.
Qed.

Lemma placeOrder_fails_on_an_empty_answer_witness :
  credentials_missing answering_null = false /\
  nullish JNull = true /\
  exists e a,
    outcome (Trading.placeOrder answering_null market_order) = inl e /\
    kind e = InternalError /\
    calls "createOrder" (trace (Trading.placeOrder answering_null market_order))
      = [client_call "createOrder" a].
Proof.
  split; [reflexivity | split; [reflexivity |]].
  destruct (placeOrder_fails_on_an_empty_answer answering_null market_order
              JNull eq_refl eq_refl (fun _ _ => eq_refl) eq_refl)
    as [(e & a & Hout & Hkind & Hcalls & _) _].
  exists e, a. auto.
Defined.

(** ** The diagnostic stream *)

(** [try { console.error(first); rest } catch (err) {
      console.error(label, err); throw err; }] *)
Lemma logged_run {A : Type} (first : Event) (rest : M A) (label : string) :
  (exists tail,
      trace (try_catch (emit first ;; rest)
               (fun err => emit (console_error label (Some err)) ;; throw err))
        = first :: tail) /\
  (forall e,
      outcome (try_catch (emit first ;; rest)
                 (fun err => emit (console_error label (Some err)) ;; throw err))
        = inl e ->
      exists lines,
        trace (try_catch (emit first ;; rest)
                 (fun err => emit (console_error label (Some err)) ;; throw err))
          = lines ++ [console_error label (Some e)]).
Proof.
  destruct rest as [t [e | r]]; unfold outcome, trace; cbn; split;
    try (eexists; reflexivity);
    intros x Hx; try discriminate Hx; injection Hx as <-.
  exists (first :: t). reflexivity.
Qed.

(** X8.  [placeOrder] and [cancelOrder] hide no failure and change none:
    whatever makes them fail, the error they throw is the one they caught,
    and the last line they write to the diagnostic stream carries it; their
    first line always announces the call. *)
Theorem failures_are_logged_and_rethrown :
  forall (proc : Process) (args : Args),
    (exists line rest,
        trace (Trading.placeOrder proc args) = console_error line None :: rest /\
        forall e,
          outcome (Trading.placeOrder proc args) = inl e ->
          exists lines,
            trace (Trading.placeOrder proc args)
              = lines ++ [console_error "placeOrder error" (Some e)]) /\
    (exists line rest,
        trace (Simple.placeOrder proc args) = console_error line None :: rest /\
        forall e,
          outcome (Simple.placeOrder proc args) = inl e ->
          exists lines,
            trace (Simple.placeOrder proc args)
              = lines ++ [console_error "placeOrder error" (Some e)]) /\
    (exists rest,
        trace (Trading.cancelOrder proc args)
          = console_error ("cancelOrder called: " ++ str proc (arg "orderId" args))
              None :: rest /\
        forall e,
          outcome (Trading.cancelOrder proc args) = inl e ->
          exists lines,
            trace (Trading.cancelOrder proc args)
              = lines ++ [console_error "cancelOrder error" (Some e)]).
Proof.
  intros proc args. split; [| split].
  - unfold Trading.placeOrder.
    match goal with
    | |- context [try_catch (bind (emit ?first) (fun _ => ?rest)) _] =>
        destruct (logged_run first rest "placeOrder error") as [[tail Ht] Hfail]
    end.
    do 2 eexists. split; [exact Ht | exact Hfail].
  - unfold Simple.placeOrder.
    match goal with
    | |- context [try_catch (bind (emit ?first) (fun _ => ?rest)) _] =>
        destruct (logged_run first rest "placeOrder error") as [[tail Ht] Hfail]
    end.
    do 2 eexists. split; [exact Ht | exact Hfail].
  - unfold Trading.cancelOrder.
    match goal with
    | |- context [try_catch (bind (emit ?first) (fun _ => ?rest)) _] =>
        destruct (logged_run first rest "cancelOrder error") as [[tail Ht] Hfail]
    end.
    eexists. split; [exact Ht | exact Hfail].
Qed.

Lemma failures_are_logged_and_rethrown_witness :
  exists e lines,
    outcome (Trading.cancelOrder rejecting [("orderId", JStr "42")]) = inl e /\
    kind e = UpstreamError /\
    trace (Trading.cancelOrder rejecting [("orderId", JStr "42")])
      = lines ++ [console_error "cancelOrder error" (Some e)].
Proof.
  destruct (failures_are_logged_and_rethrown rejecting [("orderId", JStr "42")])
    as (_ & _ & rest & _ & Hfail).
  assert (Hout : exists e,
             outcome (Trading.cancelOrder rejecting [("orderId", JStr "42")])
               = inl e /\ kind e = UpstreamError)
    by (eexists; split; reflexivity).
  destruct Hout as (e & Hout & Hkind).
  destruct (Hfail e Hout) as [lines Hlines].
  exists e, lines. auto.
Defined.

Lemma pass_on_silent (proc : Process) (method : string) (a : list JSValue)
    (summary : string) :
  filter is_console_error (trace (pass_on proc method a summary)) = [].
Proof.
  unfold pass_on.
  destruct (credentials_missing proc) eqn:Hcred.
  - rewrite (starts_with_makeClient proc _ Hcred). reflexivity.
  - rewrite (makeClient_present proc Hcred). unfold bind at 1.
    destruct (hollaex proc (client_options proc) method a) as [reason | payload]
      eqn:Hcall.
    + rewrite (await_call_rejected proc _ _ _ _ Hcall). reflexivity.
    + rewrite (await_call_resolved proc _ _ _ _ Hcall). reflexivity.
Qed.

(** X9.  Of all the tools, [placeOrder] and [cancelOrder] are the ones that
    write to the diagnostic stream, and they always do, starting with a line
    that announces the call; the handler of any other tool writes nothing,
    whether it succeeds or fails. *)
Theorem diagnostics_of_the_handlers :
  forall (proc : Process) (tool : ToolDefinition) (args : Args),
    In tool (tools (Trading.buildServer proc)
             ++ tools (Simple.buildServer proc)) ->
    (writes_diagnostics (name tool) = false ->
     filter is_console_error (trace (handler tool args)) = []) /\
    (writes_diagnostics (name tool) = true ->
     exists line rest,
       trace (handler tool args) = console_error line None :: rest).
Proof.
  intros proc tool args Hin.
  unfold Trading.buildServer, Simple.buildServer in Hin.
  rewrite !tools_registerTool in Hin.
  cbn [new_McpServer tools app In] in Hin.
  repeat (destruct Hin as [<- | Hin]); [.. | contradiction];
    cbn [handler name]; unfold writes_diagnostics;
    cbn [String.eqb Ascii.eqb Bool.eqb orb];
    (split; intros Hw; try discriminate Hw);
    first
      [ apply pass_on_silent
      | unfold Trading.placeOrder, Simple.placeOrder, Trading.cancelOrder;
        match goal with
        | |- context [try_catch (bind (emit ?first) (fun _ => ?rest))
                        (fun err => emit (console_error ?label _) ;; _)] =>
            destruct (logged_run first rest label) as [[tail Ht] _]
        end;
        do 2 eexists; exact Ht ].
Qed.

Lemma diagnostics_of_the_handlers_witness :
  exists tool,
    find_tool "getUser" (tools (Trading.buildServer rejecting)) = Some tool /\
    writes_diagnostics (name tool) = false /\
    filter is_console_error (trace (handler tool [])) = [].
Proof.
  assert (Hfound : exists tool,
             find_tool "getUser" (tools (Trading.buildServer rejecting))
               = Some tool /\ writes_diagnostics (name tool) = false)
    by (eexists; split; reflexivity).
  destruct Hfound as (tool & Hfound & Hquiet). exists tool.
  split; [exact Hfound |]. split; [exact Hquiet |].
  destruct (diagnostics_of_the_handlers rejecting tool []
              (trading_tool_registered rejecting "getUser" tool Hfound))
    as [Hsilent _].
  exact (Hsilent Hquiet).
Defined.

(** ** [makeClient] and the configuration *)

Lemma unset_iff (x : option string) :
  unset x = true <-> x = None \/ x = Some "".
Proof.
  destruct x as [s |]; simpl.
  - rewrite String.eqb_eq. split.
    + intros ->. right. reflexivity.
    + intros [H | [= ->]]; [discriminate H | reflexivity].
  - split; auto.
Qed.

(** X10.  [makeClient] throws MissingCredentials, and builds nothing,
    exactly when the API key or the API secret is unset or the empty string;
    otherwise it builds one client, with the key and the secret as they are
    in the environment. *)
Theorem makeClient_needs_both_credentials :
  forall (proc : Process),
    (makeClient proc = ([], inl missing_credentials) <->
     HOLLAEX_API_KEY (env proc) = None \/
     HOLLAEX_API_KEY (env proc) = Some "" \/
     HOLLAEX_API_SECRET (env proc) = None \/
     HOLLAEX_API_SECRET (env proc) = Some "") /\
    (forall key secret,
        HOLLAEX_API_KEY (env proc) = Some key -> key <> "" ->
        HOLLAEX_API_SECRET (env proc) = Some secret -> secret <> "" ->
        exists options,
          makeClient proc = ([new_hollaex options], inr options) /\
          apiKey options = Some key /\
          apiSecret options = Some secret).
Proof.
  intros proc. split.
  - split.
    + intros Hthrow.
      destruct (credentials_missing proc) eqn:Hcred.
      * unfold credentials_missing, API_KEY, API_SECRET in Hcred.
        apply orb_true_iff in Hcred. rewrite !unset_iff in Hcred. tauto.
      * rewrite (makeClient_present proc Hcred) in Hthrow. discriminate Hthrow.
    + intros Hunset. apply makeClient_missing.
      unfold credentials_missing, API_KEY, API_SECRET.
      apply orb_true_iff. rewrite !unset_iff. tauto.
  - intros key secret Hkey Hk Hsecret Hs.
    assert (Hcred : credentials_missing proc = false).
    { unfold credentials_missing, API_KEY, API_SECRET.
      rewrite Hkey, Hsecret. simpl.
      apply String.eqb_neq in Hk, Hs. rewrite Hk, Hs. reflexivity. }
    exists (client_options proc).
    split; [apply makeClient_present; exact Hcred |].
    unfold client_options, API_KEY, API_SECRET. cbn [apiKey apiSecret].
    split; assumption.
Qed.

Lemma makeClient_needs_both_credentials_witness :
  HOLLAEX_API_KEY (env trader) = Some "key" /\
  HOLLAEX_API_SECRET (env trader) = Some "secret" /\
  exists options,
    makeClient trader = ([new_hollaex options], inr options) /\
    apiKey options = Some "key" /\
    apiSecret options = Some "secret".
Proof.
  split; [reflexivity | split; [reflexivity |]].
  destruct (makeClient_needs_both_credentials trader) as [_ Hbuilt].
  apply (Hbuilt "key" "secret"); [reflexivity | discriminate
                                  | reflexivity | discriminate].
Defined.

(** X11.  The client [makeClient] builds points at the production exchange
    unless told otherwise: an address or an expiry that is unset or empty in
    the environment is replaced by its default
    ([https://api.hollaex.com], [wss://api.hollaex.com/stream], 60 seconds),
    and one that is set is used as it is, the expiry converted to a
    number. *)
Theorem makeClient_defaults :
  forall (proc : Process) (options : ClientOptions),
    outcome (makeClient proc) = inr options ->
    ((HOLLAEX_API_URL (env proc) = None \/
      HOLLAEX_API_URL (env proc) = Some "") ->
     apiURL options = "https://api.hollaex.com") /\
    (forall url, HOLLAEX_API_URL (env proc) = Some url -> url <> "" ->
                 apiURL options = url) /\
    ((HOLLAEX_WS_URL (env proc) = None \/
      HOLLAEX_WS_URL (env proc) = Some "") ->
     wsURL options = "wss://api.hollaex.com/stream") /\
    (forall url, HOLLAEX_WS_URL (env proc) = Some url -> url <> "" ->
                 wsURL options = url) /\
    ((HOLLAEX_API_EXPIRES_AFTER (env proc) = None \/
      HOLLAEX_API_EXPIRES_AFTER (env proc) = Some "") ->
     apiExpiresAfter options = Some (inject_Z 60)) /\
    (forall seconds,
        HOLLAEX_API_EXPIRES_AFTER (env proc) = Some seconds -> seconds <> "" ->
        apiExpiresAfter options = Number_of_string proc seconds).
Proof.
  intros proc options Hout.
  assert (Hoptions : options = client_options proc).
  { destruct (credentials_missing proc) eqn:Hcred.
    - rewrite (makeClient_missing proc Hcred) in Hout. discriminate Hout.
    - rewrite (makeClient_present proc Hcred) in Hout.
      unfold outcome in Hout. cbn [snd] in Hout. congruence. }
  subst options.
  unfold client_options, API_URL, WS_URL, API_EXPIRES_AFTER, or_else.
  cbn [apiURL wsURL apiExpiresAfter].
  repeat split.
  - intros [-> | ->]; reflexivity.
  - intros url -> Hurl. apply String.eqb_neq in Hurl. rewrite Hurl. reflexivity.
  - intros [-> | ->]; reflexivity.
  - intros url -> Hurl. apply String.eqb_neq in Hurl. rewrite Hurl. reflexivity.
  - intros [-> | ->]; reflexivity.
  - intros s -> Hs. apply String.eqb_neq in Hs. rewrite Hs. reflexivity.
Qed.

Lemma makeClient_defaults_witness :
  outcome (makeClient trader) = inr (client_options trader) /\
  HOLLAEX_API_URL (env trader) = None /\
  apiURL (client_options trader) = "https://api.hollaex.com" /\
  wsURL (client_options trader) = "wss://api.hollaex.com/stream" /\
  apiExpiresAfter (client_options trader) = Some (inject_Z 60).
Proof.
  split; [reflexivity | split; [reflexivity |]].
  destruct (makeClient_defaults trader (client_options trader) eq_refl)
    as (Hurl & _ & Hws & _ & Hexp & _).
  split; [apply Hurl; left; reflexivity |].
  split; [apply Hws; left; reflexivity | apply Hexp; left; reflexivity].
Defined.

(** ** The HTTP application: what is not a POST *)



(** X13.  On each MCP path, [/mcp] and [/api/mcp], a GET is answered with
    status 200 and [{ok: true, message: 'POST MCP requests here'}], and an
    OPTIONS with status 200 and [{ok: true}], whatever the body of the
    request, the registry and the process. *)
Theorem GET_and_OPTIONS_on_the_MCP_paths :
  forall (proc : Process) (server : McpServer) (req : Request),
    In (req_path req) mcpPaths ->
    (req_method req = GET ->
     dispatch (http_app proc server) req = ([], post_here_response)) /\
    (req_method req = OPTIONS ->
     dispatch (http_app proc server) req = ([], ok_response)).
Proof.
  intros proc server [m p b] Hpath. cbn [req_method req_path] in *.
  destruct Hpath as [<- | [<- | []]]; split; intros ->; reflexivity.
Qed.

Lemma GET_and_OPTIONS_on_the_MCP_paths_witness :
  In "/api/mcp" mcpPaths /\
  dispatch (Simple.createHttpApp anonymous)
    {| req_method := GET; req_path := "/api/mcp"; req_body := JNull |}
    = ([], post_here_response).
Proof.
  split; [right; left; reflexivity |].
  destruct (GET_and_OPTIONS_on_the_MCP_paths anonymous
              (Simple.buildServer anonymous)
              {| req_method := GET; req_path := "/api/mcp"; req_body := JNull |}
              (or_intror (or_introl eq_refl))) as [Hget _].
  exact (Hget eq_refl).
Defined.

(** ** Starting the server *)

Lemma mode_is_http (launch : Launch) :
  String.eqb (mode launch) "http" = true <-> http_selected launch.
Proof.
  unfold mode, http_selected.
  assert (Hflag : existsb (String.eqb "--http") (argv launch) = true
                  <-> In "--http" (argv launch)).
  { rewrite existsb_exists. split.
    - intros (x & Hin & Hx). apply String.eqb_eq in Hx. subst x. exact Hin.
    - intros Hin. exists "--http". split; [exact Hin | apply String.eqb_refl]. }
  destruct (MCP_TRANSPORT launch) as [s |].
  - destruct (String.eqb s "") eqn:Hs.
    + apply String.eqb_eq in Hs. subst s.
      destruct (existsb (String.eqb "--http") (argv launch)); simpl; split.
      * intros _. right. split; [right; reflexivity | apply Hflag; reflexivity].
      * reflexivity.
      * discriminate.
      * intros [H | [_ Hin]]; [discriminate H |].
        apply Hflag in Hin. discriminate Hin.
    + rewrite String.eqb_eq. split.
      * intros ->. left. reflexivity.
      * intros [[= ->] | [[H | [= ->]] _]];
          [reflexivity | discriminate H | discriminate Hs].
  - destruct (existsb (String.eqb "--http") (argv launch)); simpl; split.
    + intros _. right. split; [left; reflexivity | apply Hflag; reflexivity].
    + reflexivity.
    + discriminate.
    + intros [H | [_ Hin]]; [discriminate H |].
      apply Hflag in Hin. discriminate Hin.
Qed.

Lemma run_main_http (proc : Process) (host : Host) (launch : Launch) :
  http_selected launch ->
  run_main proc host launch = fst (startHttp proc host launch).
Proof.
  intros H. apply mode_is_http in H. unfold run_main, main. rewrite H.
  reflexivity.
Qed.

Lemma run_main_stdio (proc : Process) (host : Host) (launch : Launch) :
  ~ http_selected launch ->
  run_main proc host launch =
    match connects host with
    | Some reason =>
        [connect_stdio;
         startup_line "Failed to start MCP server:" (Some reason); exit 1]
    | None =>
        [connect_stdio;
         startup_line "HollaEx MCP server running on stdio." None]
    end.
Proof.
  intros H. unfold run_main, main.
  destruct (String.eqb (mode launch) "http") eqn:E.
  - apply mode_is_http in E. contradiction.
  - unfold startStdio. destruct (connects host); reflexivity.
Qed.

(** X14.  [main] serves over HTTP exactly when [MCP_TRANSPORT] is "http",
    or is unset or empty while [--http] is among the arguments of the
    process; in every other case, also when [MCP_TRANSPORT] holds any other
    value beside the flag, it serves over stdio.  It never starts both. *)
Theorem transport_selection :
  forall (proc : Process) (host : Host) (launch : Launch),
    (http_selected launch ->
     (exists rest,
         run_main proc host launch = listen (port proc launch) :: rest) /\
     ~ In connect_stdio (run_main proc host launch)) /\
    (~ http_selected launch ->
     (exists rest, run_main proc host launch = connect_stdio :: rest) /\
     forall p, ~ In (listen p) (run_main proc host launch)).
Proof.
  intros proc host launch. split; intros Hsel.
  - rewrite (run_main_http proc host launch Hsel). unfold startHttp.
    cbn [fst]. split; [eexists; reflexivity |].
    destruct (binds host (port proc launch));
      cbn [In]; intros [H | [H | H]]; try discriminate H; try contradiction.
    destruct H as [H | H]; [discriminate H | contradiction].
  - rewrite (run_main_stdio proc host launch Hsel).
    destruct (connects host); (split; [eexists; reflexivity |]);
      intros p; cbn [In]; intros [H | [H | H]]; try discriminate H;
      try contradiction.
    destruct H as [H | H]; [discriminate H | contradiction].
Qed.

Lemma transport_selection_witness :
  http_selected launch_with_flag /\
  ~ http_selected launch_stdio_forced /\
  (exists rest,
      run_main trader healthy_host launch_with_flag
        = listen (port trader launch_with_flag) :: rest) /\
  (exists rest,
      run_main trader healthy_host launch_stdio_forced = connect_stdio :: rest).
Proof.
  assert (Hhttp : http_selected launch_with_flag)
    by (right; split; [left; reflexivity | do 2 right; left; reflexivity]).
  assert (Hstdio : ~ http_selected launch_stdio_forced)
    by (intros [H | [[H | H] _]]; discriminate H).
  split; [exact Hhttp | split; [exact Hstdio |]].
  destruct (transport_selection trader healthy_host launch_with_flag)
    as [Hfirst _].
  destruct (transport_selection trader healthy_host launch_stdio_forced)
    as [_ Hsecond].
  split; [apply (Hfirst Hhttp) | apply (Hsecond Hstdio)].
Defined.

(** X15.  The port [startHttp] listens on, once: [MCP_HTTP_PORT] converted
    to a number when it is set and not empty; otherwise [PORT], the same
    way; otherwise 3000. *)
Theorem http_port_precedence :
  forall (proc : Process) (host : Host) (launch : Launch),
    (exists rest,
        fst (startHttp proc host launch) = listen (port proc launch) :: rest /\
        forall p, ~ In (listen p) rest) /\
    (forall s, MCP_HTTP_PORT launch = Some s -> s <> "" ->
               port proc launch = Number_of_string proc s) /\
    (MCP_HTTP_PORT launch = None \/ MCP_HTTP_PORT launch = Some "" ->
     (forall s, PORT launch = Some s -> s <> "" ->
                port proc launch = Number_of_string proc s) /\
     (PORT launch = None \/ PORT launch = Some "" ->
      port proc launch = Some (inject_Z 3000))).
Proof.
  intros proc host launch. split; [| split].
  - unfold startHttp. cbn [fst]. eexists. split; [reflexivity |].
    intros p. destruct (binds host (port proc launch));
      cbn [In]; intros [H | H]; try discriminate H; try contradiction.
    destruct H as [H | H]; [discriminate H | contradiction].
  - intros s Hs Hne. apply String.eqb_neq in Hne.
    unfold port, first_set, unset. rewrite Hs, Hne. cbn iota.
    rewrite Hne. reflexivity.
  - intros Hunset. apply unset_iff in Hunset.
    unfold port, first_set. rewrite Hunset. split.
    + intros s Hs Hne. rewrite Hs.
      apply String.eqb_neq in Hne. rewrite Hne. reflexivity.
    + intros [-> | ->]; reflexivity.
Qed.

Lemma http_port_precedence_witness :
  MCP_HTTP_PORT launch_with_flag = None /\
  PORT launch_stdio_forced = None /\
  port trader launch_stdio_forced = Some (inject_Z 3000).
Proof.
  split; [reflexivity | split; [reflexivity |]].
  destruct (http_port_precedence trader healthy_host launch_stdio_forced)
    as (_ & _ & Hport).
  destruct (Hport (or_introl eq_refl)) as [_ Hdefault].
  apply Hdefault. left. reflexivity.
Defined.

(** X16.  The process exits, with code 1, exactly when the transport it
    selected cannot start: the port cannot be bound, or the connection over
    stdio is refused.  The exit is then the last thing it does, after a
    line on the diagnostic stream that carries the error; when the
    transport starts, the process does not exit. *)
Theorem exit_code_at_startup :
  forall (proc : Process) (host : Host) (launch : Launch),
    (transport_fails proc host launch ->
     exists lines text err,
       run_main proc host launch
         = lines ++ [startup_line text (Some err); exit 1] /\
       forall c, ~ In (exit c) lines) /\
    (~ transport_fails proc host launch ->
     forall c, ~ In (exit c) (run_main proc host launch)).
Proof.
  intros proc host launch. unfold transport_fails. split.
  - intros [[Hsel Hbind] | [Hsel Hconn]].
    + rewrite (run_main_http proc host launch Hsel). unfold startHttp.
      cbn [fst]. destruct (binds host (port proc launch)) as [err |];
        [| contradiction].
      exists [listen (port proc launch)]. do 2 eexists.
      split; [reflexivity |].
      intros c [H | []]. discriminate H.
    + rewrite (run_main_stdio proc host launch Hsel).
      destruct (connects host) as [reason |]; [| contradiction].
      exists [connect_stdio]. do 2 eexists. split; [reflexivity |].
      intros c [H | []]. discriminate H.
  - intros Hfine c.
    assert (Hdec : http_selected launch \/ ~ http_selected launch).
    { destruct (String.eqb (mode launch) "http") eqn:E.
      - left. apply mode_is_http. exact E.
      - right. intros H. apply mode_is_http in H. congruence. }
    destruct Hdec as [Hsel | Hsel].
    + rewrite (run_main_http proc host launch Hsel). unfold startHttp.
      cbn [fst]. destruct (binds host (port proc launch)) as [err |] eqn:Hb.
      * exfalso. apply Hfine. left. split; [exact Hsel | congruence].
      * cbn [In]. intros [H | [H | []]]; discriminate H.
    + rewrite (run_main_stdio proc host launch Hsel).
      destruct (connects host) as [reason |] eqn:Hc.
      * exfalso. apply Hfine. right. split; [exact Hsel | congruence].
      * cbn [In]. intros [H | [H | []]]; discriminate H.
Qed.

Lemma exit_code_at_startup_witness :
  transport_fails trader port_taken launch_with_flag /\
  exists lines text err,
    run_main trader port_taken launch_with_flag
      = lines ++ [startup_line text (Some err); exit 1].
Proof.
  assert (Hfails : transport_fails trader port_taken launch_with_flag).
  { left. split; [| discriminate].
    right. split; [left; reflexivity | do 2 right; left; reflexivity]. }
  split; [exact Hfails |].
  destruct (exit_code_at_startup trader port_taken launch_with_flag)
    as [Hexit _].
  destruct (Hexit Hfails) as (lines & text & err & Hrun & _).
  exists lines, text, err. exact Hrun.
Defined.

(** ** The catalogs *)

(** A list of names without repetition, by computation. *)
Lemma distinct_keys (l : list string) :
  (fix distinct (l : list string) : bool :=
     match l with
     | [] => true
     | x :: rest => negb (mem x rest) && distinct rest
     end) l = true ->
  NoDup l.
Proof.
  induction l as [| x l IH]; [constructor |].
  intros H. apply andb_true_iff in H. destruct H as [Hx Hl].
  constructor; [| apply IH; exact Hl].
  intros Hin. apply negb_true_iff in Hx. unfold mem in Hx.
  assert (Hex : existsb (String.eqb x) l = true)
    by (apply existsb_exists; exists x; split;
        [exact Hin | apply String.eqb_refl]).
  congruence.
Qed.

(** X17.  Each server registers its tools under pairwise distinct names,
    nineteen in the trading server and two in the two-tool server, those two
    being names of the trading server as well; so no tool hides another, and
    every tool is the one found under its name. *)
Theorem tools_have_distinct_names :
  forall (proc : Process),
    NoDup (tool_names (Trading.buildServer proc)) /\
    length (tools (Trading.buildServer proc)) = 19%nat /\
    NoDup (tool_names (Simple.buildServer proc)) /\
    length (tools (Simple.buildServer proc)) = 2%nat /\
    incl (tool_names (Simple.buildServer proc))
      (tool_names (Trading.buildServer proc)) /\
    (forall (server : McpServer) (tool : ToolDefinition),
        In server (servers proc) ->
        In tool (tools server) ->
        find_tool (name tool) (tools server) = Some tool).
Proof.
  intros proc.
  split; [rewrite trading_tool_names; apply distinct_keys; reflexivity |].
  split.
  { rewrite <- (length_map name). fold (tool_names (Trading.buildServer proc)).
    rewrite trading_tool_names. reflexivity. }
  split; [rewrite simple_tool_names; apply distinct_keys; reflexivity |].
  split.
  { rewrite <- (length_map name). fold (tool_names (Simple.buildServer proc)).
    rewrite simple_tool_names. reflexivity. }
  split.
  { rewrite simple_tool_names, trading_tool_names. unfold trading_catalog.
    intros n [<- | [<- | []]]; cbn [In]; auto 20. }
  intros server tool Hserver Htool.
  apply (registered_tool proc server tool Hserver Htool).
Qed.

Lemma tools_have_distinct_names_witness :
  In (Trading.buildServer trader) (servers trader) /\
  exists tool,
    In tool (tools (Trading.buildServer trader)) /\
    name tool = "executeOrder" /\
    find_tool "executeOrder" (tools (Trading.buildServer trader)) = Some tool.
Proof.
  split; [left; reflexivity |].
  assert (Hfound : exists tool,
             find_tool "executeOrder" (tools (Trading.buildServer trader))
               = Some tool) by (eexists; reflexivity).
  destruct Hfound as [tool Hfound].
  destruct (find_tool_In _ _ _ Hfound) as [Hin Hname].
  exists tool. split; [exact Hin |]. split; [exact Hname |].
  destruct (tools_have_distinct_names trader) as (_ & _ & _ & _ & _ & Hreach).
  rewrite <- Hname.
  apply (Hreach (Trading.buildServer trader) tool);
    [left; reflexivity | exact Hin].
Defined.

(** X18.  [getUserBalance] is the same tool in both versions of the server:
    the same title, description and schemas, and a handler that returns the
    same result and leaves the same trace on every input, in every
    process. *)
Theorem getUserBalance_is_the_same_in_both_versions :
  forall (proc : Process),
  exists simple_tool trading_tool : ToolDefinition,
    find_tool "getUserBalance" (tools (Simple.buildServer proc))
      = Some simple_tool /\
    find_tool "getUserBalance" (tools (Trading.buildServer proc))
      = Some trading_tool /\
    tool_info simple_tool = tool_info trading_tool /\
    forall args : Args, handler simple_tool args = handler trading_tool args.
Proof.
  intros proc. do 2 eexists.
  split; [reflexivity |]. split; [reflexivity |].
  split; [reflexivity |]. intros args. reflexivity.
Qed.

(** ** What validation hands to the handlers *)

Lemma parse_fields_keys path v props shape k :
  In k (map fst (snd (parse_fields path v props shape))) ->
  In k (map fst shape).
Proof.
  induction shape as [| [k' field] shape IH]; simpl; [auto |].
  destruct (parse_fields path v props shape) as [issues out].
  destruct (parse field (path ++ [k']) (prop k' v)) as [found | x];
    cbn [snd] in *.
  - intros H. right. apply IH. exact H.
  - destruct (has_key k' props || negb (is_undefined x)); cbn [map fst In].
    + intros [H | H]; [left; exact H | right; apply IH; exact H].
    + intros H. right. apply IH. exact H.
Qed.

Lemma assoc_none_not_in {A : Type} (k : string) (l : list (string * A)) :
  ~ In k (map fst l) -> assoc k l = None.
Proof.
  induction l as [| [k' x] l IH]; simpl; [reflexivity |].
  intros H. destruct (String.eqb k k') eqn:E.
  - apply String.eqb_eq in E. exfalso. apply H. left. symmetry. exact E.
  - apply IH. intros Hin. apply H. right. exact Hin.
Qed.

(** Under a declared key, the parsed object holds the parsed value. *)
Lemma parse_fields_lookup path v props shape k field x :
  NoDup (map fst shape) ->
  In (k, field) shape ->
  parse field (path ++ [k]) (prop k v) = inr x ->
  prop k (JObj (snd (parse_fields path v props shape))) = x.
Proof.
  induction shape as [| [k' f'] shape IH]; simpl; [contradiction |].
  intros Hnodup Hin Hparse. inversion Hnodup as [| ? ? Hfresh Hrest]; subst.
  destruct (parse_fields path v props shape) as [issues out] eqn:Hfields.
  destruct Hin as [[= -> ->] | Hin].
  - rewrite Hparse. cbn [snd].
    assert (Hout : assoc k out = None).
    { apply assoc_none_not_in. intros Hk. apply Hfresh.
      apply (parse_fields_keys path v props shape k).
      rewrite Hfields. exact Hk. }
    destruct (has_key k props || negb (is_undefined x)) eqn:Hkeep; simpl.
    + rewrite String.eqb_refl. reflexivity.
    + rewrite Hout. apply orb_false_iff in Hkeep. destruct Hkeep as [_ Hx].
      destruct x; try discriminate Hx; reflexivity.
  - assert (Hne : String.eqb k k' = false).
    { apply String.eqb_neq. intros ->. apply Hfresh.
      apply (in_map fst) in Hin. exact Hin. }
    specialize (IH Hrest Hin Hparse). cbn [snd] in IH.
    destruct (parse f' (path ++ [k']) (prop k' v)) as [found | x'];
      cbn [snd]; [exact IH |].
    destruct (has_key k' props || negb (is_undefined x')); [| exact IH].
    simpl. rewrite Hne. exact IH.
Qed.

(** The parsed data of an object schema that strips undeclared keys. *)
Lemma strict_object_parsed path shape props x :
  parse (ZObject shape strip_keys None) path (JObj props) = inr x ->
  x = JObj (snd (parse_fields path (JObj props) props shape)) /\
  fst (parse_fields path (JObj props) props shape) = [].
Proof.
  rewrite parse_strict_object.
  destruct (fst (parse_fields path (JObj props) props shape));
    [intros [= <-]; auto | discriminate].
Qed.

Lemma parse_args_object (s : Schema) (params : JSValue) (args : Args) :
  parse_args s params = inr args -> safeParse s params = inr (JObj args).
Proof.
  unfold parse_args. destruct (safeParse s params) as [issues | x];
    [discriminate |].
  destruct x; try discriminate. intros [= ->]. reflexivity.
Qed.

Lemma pass_on_call (proc : Process) (method : string) (a : list JSValue)
    (summary : string) (m : string) (a' : list JSValue) :
  In (client_call m a') (trace (pass_on proc method a summary)) ->
  m = method /\ a' = a.
Proof.
  unfold pass_on.
  destruct (credentials_missing proc) eqn:Hcred.
  - rewrite (starts_with_makeClient proc _ Hcred). intros [].
  - rewrite (makeClient_present proc Hcred). unfold bind at 1.
    destruct (hollaex proc (client_options proc) method a) as [reason | payload]
      eqn:Hcall.
    + rewrite (await_call_rejected proc _ _ _ _ Hcall). cbn.
      intros [H | [H | []]]; try discriminate H. injection H as <- <-. auto.
    + rewrite (await_call_resolved proc _ _ _ _ Hcall). cbn.
      intros [H | [H | []]]; try discriminate H. injection H as <- <-. auto.
Qed.

(** X19.  What validation hands to a handler holds declared keys only: for
    every tool of either server, the keys of the validated parameter
    mapping are among the keys its input schema declares.  [getOrders] and
    [getUserTrades] pass that mapping whole to the exchange, so no
    undeclared filter reaches it. *)
Theorem undeclared_parameters_are_dropped :
  forall (proc : Process) (server : McpServer) (tool : ToolDefinition)
         (params : JSValue) (args : Args),
    In server (servers proc) ->
    In tool (tools server) ->
    parse_args (inputSchema tool) params = inr args ->
    (forall k, In k (map fst args) ->
               In k (map fst (declared_fields (inputSchema tool)))) /\
    (name tool = "getOrders" \/ name tool = "getUserTrades" ->
     forall m a, In (client_call m a) (trace (handler tool args)) ->
                 a = [JObj args]).
Proof.
  intros proc server tool params args Hserver Htool Hargs.
  destruct (registered_tool proc server tool Hserver Htool)
    as [_ [shape Hshape]].
  split.
  - apply parse_args_object in Hargs. rewrite Hshape in *.
    cbn [declared_fields]. unfold safeParse in Hargs.
    destruct params; try discriminate Hargs.
    destruct (strict_object_parsed _ _ _ _ Hargs) as [[= ->] _].
    intros k. apply parse_fields_keys.
  - clear Hargs Hshape. intros Hname m a Hin.
    assert (Hpass : exists method summary,
               handler tool args = pass_on proc method [JObj args] summary).
    { destruct Hserver as [<- | [<- | []]];
        [ unfold Trading.buildServer in Htool
        | unfold Simple.buildServer in Htool ];
        rewrite !tools_registerTool in Htool;
        cbn [new_McpServer tools app In] in Htool;
        repeat (destruct Htool as [<- | Htool]); try contradiction;
        cbn [name] in Hname;
        try (destruct Hname as [Hname | Hname]; discriminate Hname);
        do 2 eexists; reflexivity. }
    destruct Hpass as (method & summary & Hpass). rewrite Hpass in Hin.
    apply (pass_on_call proc method [JObj args] summary m a Hin).
Qed.

Lemma undeclared_parameters_are_dropped_witness :
  exists tool args,
    In (Trading.buildServer trader) (servers trader) /\
    In tool (tools (Trading.buildServer trader)) /\
    name tool = "getOrders" /\
    parse_args (inputSchema tool)
      (JObj [("limit", num 10); ("password", JStr "hunter2")]) = inr args /\
    args = [("limit", num 10)] /\
    forall k, In k (map fst args) ->
              In k (map fst (declared_fields (inputSchema tool))).
Proof.
  assert (Hfound : exists tool,
             find_tool "getOrders" (tools (Trading.buildServer trader))
               = Some tool /\
             parse_args (inputSchema tool)
               (JObj [("limit", num 10); ("password", JStr "hunter2")])
             = inr [("limit", num 10)])
    by (eexists; split; reflexivity).
  destruct Hfound as (tool & Hfound & Hargs).
  destruct (find_tool_In _ _ _ Hfound) as [Hin Hname].
  exists tool, [("limit", num 10)].
  split; [left; reflexivity |]. split; [exact Hin |].
  split; [exact Hname |]. split; [exact Hargs |]. split; [reflexivity |].
  apply (undeclared_parameters_are_dropped trader (Trading.buildServer trader)
           tool (JObj [("limit", num 10); ("password", JStr "hunter2")])
           [("limit", num 10)]);
    [left; reflexivity | exact Hin | exact Hargs].
Defined.

(** X20.  An order that names no type: the two-tool server takes it for a
    limit order, so that without a price its handler refuses it with the
    price error; the trading server, whose schema has no default, rejects it
    at validation. *)
Theorem order_type_defaults_to_limit_in_the_two_tool_server_only :
  forall (proc : Process) (props : list (string * JSValue)),
    arg "type" props = JUndefined ->
    (forall args,
        parse_args (input_schema_of (Simple.buildServer proc) "placeOrder")
          (JObj props) = inr args ->
        arg "type" args = JStr "limit" /\
        (arg "price" props = JUndefined ->
         outcome (Simple.placeOrder proc args) = inl price_required)) /\
    (exists issues,
        parse_args (input_schema_of (Trading.buildServer proc) "placeOrder")
          (JObj props) = inl issues).
Proof.
  intros proc props Htype. unfold arg in Htype. split.
  - intros args Hargs. apply parse_args_object in Hargs.
    revert Hargs. registered_schema. unfold safeParse, z.object.
    intros Hargs.
    destruct (strict_object_parsed _ _ _ _ Hargs) as [Heq _]. clear Hargs.
    match type of Heq with
    | _ = JObj (snd (parse_fields _ _ _ ?shape)) =>
        assert (Hkeys : NoDup (map fst shape))
          by (apply distinct_keys; reflexivity);
        pose proof (fun k field x Hin =>
                      parse_fields_lookup [] (JObj props) props shape k field x
                        Hkeys Hin) as Hlookup;
        set (parsed := parse_fields [] (JObj props) props shape) in *
    end.
    assert (Hparsed : args = snd parsed) by congruence. subst args.
    assert (Hlimit : arg "type" (snd parsed) = JStr "limit").
    { unfold arg. eapply Hlookup.
      - do 3 right. left. reflexivity.
      - rewrite Htype. reflexivity. }
    split; [exact Hlimit |].
    intros Hprice. unfold arg in Hprice.
    assert (Hnone : arg "price" (snd parsed) = JUndefined).
    { unfold arg. eapply Hlookup.
      - do 4 right. left. reflexivity.
      - rewrite Hprice. reflexivity. }
    destruct (simple_placeOrder_rejects proc _
                (proj2 (is_string_true "limit" _) Hlimit)
                (f_equal truthy Hnone)) as [line Hrun].
    rewrite Hrun. reflexivity.
  - registered_schema. unfold parse_args, safeParse, z.object.
    match goal with
    | |- context [parse (ZObject ?shape _ _) _ _] =>
        destruct (strict_object_field_issue [] shape props "type"
                    (z.enum ["limit"; "market"]
                     |> describe "Order type (must choose market or limit)")
                    {| code := required; path := ["type"] |} [])
          as [issues Hissues]
    end.
    + do 3 right. left. reflexivity.
    + rewrite Htype. reflexivity.
    + rewrite Hissues. eexists. reflexivity.
Qed.

Lemma order_type_defaults_to_limit_in_the_two_tool_server_only_witness :
  arg "type" untyped_order = JUndefined /\
  arg "price" untyped_order = JUndefined /\
  exists args,
    parse_args (input_schema_of (Simple.buildServer trader) "placeOrder")
      (JObj untyped_order) = inr args /\
    arg "type" args = JStr "limit" /\
    outcome (Simple.placeOrder trader args) = inl price_required.
Proof.
  split; [reflexivity | split; [reflexivity |]].
  assert (Hargs : exists args,
             parse_args (input_schema_of (Simple.buildServer trader) "placeOrder")
               (JObj untyped_order) = inr args)
    by (eexists; reflexivity).
  destruct Hargs as [args Hargs]. exists args. split; [exact Hargs |].
  destruct (order_type_defaults_to_limit_in_the_two_tool_server_only
              trader untyped_order eq_refl) as [Hsimple _].
  destruct (Hsimple args Hargs) as [Hlimit Hrefused].
  split; [exact Hlimit | exact (Hrefused eq_refl)].
Defined.

(** ** The output schema of the balance tools *)

(** [parse] on an object schema with a catch-all, in terms of
    [parse_fields] and [parse_rest]. *)
Lemma parse_catchall_object path shape unknownKeys rest props :
  parse (ZObject shape unknownKeys (Some rest)) path (JObj props) =
    match fst (parse_fields path (JObj props) props shape)
          ++ fst (parse_rest rest path
                    (filter (fun kv => negb (has_key (fst kv) shape)) props))
    with
    | [] =>
        inr (JObj (snd (parse_fields path (JObj props) props shape)
                   ++ snd (parse_rest rest path
                             (filter (fun kv => negb (has_key (fst kv) shape))
                                props))))
    | issues => inl issues
    end.
Proof.
  assert (E : forall sh,
    (fix fields (sh : list (string * Schema))
       : list Issue * list (string * JSValue) :=
       match sh with
       | [] => ([], [])
       | (k, field) :: sh' =>
           let '(issues, out) := fields sh' in
           match parse field (path ++ [k]) (prop k (JObj props)) with
           | inl found => (found ++ issues, out)
           | inr x =>
               (issues,
                if has_key k props || negb (is_undefined x)
                then (k, x) :: out else out)
           end
       end) sh = parse_fields path (JObj props) props sh).
  { induction sh as [| [k f] sh IH]; [reflexivity |].
    simpl parse_fields. rewrite <- IH. reflexivity. }
  assert (R : forall ps,
    (fix others (ps : list (string * JSValue))
       : list Issue * list (string * JSValue) :=
       match ps with
       | [] => ([], [])
       | (k, x) :: ps' =>
           let '(issues, out) := others ps' in
           match parse rest (path ++ [k]) x with
           | inl found => (found ++ issues, out)
           | inr x' => (issues, (k, x') :: out)
           end
       end) ps = parse_rest rest path ps).
  { induction ps as [| [k x] ps IH]; [reflexivity |].
    simpl parse_rest. rewrite <- IH. reflexivity. }
  simpl. rewrite E, R. reflexivity.
Qed.

Lemma parse_rest_ok rest path l :
  (forall k x, In (k, x) l -> exists x', parse rest (path ++ [k]) x = inr x') ->
  fst (parse_rest rest path l) = [].
Proof.
  induction l as [| [k x] l IH]; simpl; [reflexivity |].
  intros Hall. destruct (Hall k x (or_introl eq_refl)) as [x' Hx]. rewrite Hx.
  assert (Hrest : fst (parse_rest rest path l) = [])
    by (apply IH; intros k' y Hin; apply (Hall k' y); right; exact Hin).
  destruct (parse_rest rest path l). exact Hrest.
Qed.

Lemma parse_rest_issue rest path l k x i found :
  In (k, x) l ->
  parse rest (path ++ [k]) x = inl (i :: found) ->
  fst (parse_rest rest path l) <> [].
Proof.
  induction l as [| [k' y] l IH]; simpl; [contradiction |].
  intros [[= -> ->] | Hin] Hbad.
  - rewrite Hbad. destruct (parse_rest rest path l). simpl. discriminate.
  - specialize (IH Hin Hbad).
    destruct (parse_rest rest path l) as [issues out].
    destruct (parse rest (path ++ [k']) y) as [more | y']; simpl in *.
    + destruct more; simpl; [exact IH | discriminate].
    + exact IH.
Qed.

Lemma assoc_In {A : Type} (k : string) (l : list (string * A)) (v : A) :
  assoc k l = Some v -> In (k, v) l.
Proof.
  induction l as [| [k' x] l IH]; simpl; [discriminate |].
  destruct (String.eqb k k') eqn:E.
  - apply String.eqb_eq in E. intros [= ->]. left. congruence.
  - intros H. right. apply IH. exact H.
Qed.

(** The balance schema on an object: accepted when every property is a
    number, refused when some property is not. *)
Lemma balances_of_numbers (props : list (string * JSValue)) :
  (forall k v, In (k, v) props -> exists q, v = JNum q) ->
  exists out, safeParse balanceOutputSchema (JObj props) = inr (JObj out).
Proof.
  intros Hnumbers. unfold safeParse, balanceOutputSchema.
  cbn [z.object z.number catchall optional].
  rewrite parse_catchall_object.
  rewrite (parse_fields_ok [] (JObj props) props).
  - rewrite (parse_rest_ok (ZNumber []) []).
    + eexists. reflexivity.
    + intros k x Hin. apply filter_In in Hin. destruct Hin as [Hin _].
      destruct (Hnumbers k x Hin) as [q ->]. eexists. reflexivity.
  - intros k field [[= <- <-] | []]. cbn [prop].
    destruct (assoc "user_id" props) as [v |] eqn:Huser.
    + destruct (Hnumbers "user_id" v (assoc_In _ _ _ Huser)) as [q ->].
      eexists. reflexivity.
    + eexists. reflexivity.
Qed.

Lemma balance_not_a_number (props : list (string * JSValue)) (k : string)
    (v : JSValue) :
  assoc k props = Some v ->
  (forall q, v <> JNum q) ->
  v <> JUndefined ->
  exists issues, safeParse balanceOutputSchema (JObj props) = inl issues.
Proof.
  intros Hk Hnot Hdef. unfold safeParse, balanceOutputSchema.
  cbn [z.object z.number catchall optional].
  rewrite parse_catchall_object.
  assert (Hbad : forall path, exists i found,
             parse (ZNumber []) path v = inl (i :: found)).
  { intros path. destruct v; simpl; try (do 2 eexists; reflexivity).
    exfalso. apply (Hnot q). reflexivity. }
  match goal with
  | |- exists issues, match ?l with _ => _ end = _ =>
      assert (Hne : l <> []); [| destruct l; [contradiction | eexists; reflexivity]]
  end.
  destruct (String.eqb k "user_id") eqn:E.
  - apply String.eqb_eq in E. subst k.
    assert (Hfield : fst (parse_fields [] (JObj props) props
                            [("user_id", ZOptional (ZNumber []))]) <> []).
    { destruct (Hbad ([] ++ ["user_id"])) as (i & found & Hparse).
      apply (parse_fields_issue [] (JObj props) props _ "user_id"
               (ZOptional (ZNumber [])) i found); [left; reflexivity |].
      cbn [prop]. rewrite Hk. destruct v; try exact Hparse.
      contradiction. }
    intros Happ. apply app_eq_nil in Happ. destruct Happ as [H _].
    contradiction.
  - destruct (Hbad ([] ++ [k])) as (i & found & Hparse).
    assert (Hrest : fst (parse_rest (ZNumber []) []
                           (filter (fun kv => negb (has_key (fst kv)
                                      [("user_id", ZOptional (ZNumber []))]))
                              props)) <> []).
    { apply (parse_rest_issue (ZNumber []) [] _ k v i found); [| exact Hparse].
      apply filter_In. split; [apply assoc_In; exact Hk |].
      unfold has_key. cbn [fst assoc]. rewrite E. reflexivity. }
    intros Happ. apply app_eq_nil in Happ. destruct Happ as [_ H].
    contradiction.
Qed.

(** X21.  The balance tools return a balance only if it is made of numbers:
    with the credentials configured and the exchange answering [getBalance]
    with an object, the invocation succeeds with that object when every
    property of it is a number, and fails, after the call, when a property
    is anything else (a date, say), with the failure kept for a payload that
    violates the output schema. *)
Theorem balances_must_be_numbers :
  forall (proc : Process) (toolName : string) (params : JSValue)
         (props : list (string * JSValue)),
    In toolName ["getUserBalance"; "getBalance"] ->
    credentials_missing proc = false ->
    (exists args, params = JObj args) ->
    hollaex proc (client_options proc) "getBalance" [] = inr (JObj props) ->
    ((forall k v, In (k, v) props -> exists q, v = JNum q) ->
     snd (invoke proc (Trading.buildServer proc) toolName params)
       = Success (formatResponse "Fetched user balances." (JObj props))) /\
    (forall k v,
        assoc k props = Some v -> (forall q, v <> JNum q) -> v <> JUndefined ->
        exists description,
          invoke proc (Trading.buildServer proc) toolName params
            = ([new_hollaex (client_options proc); client_call "getBalance" []],
               Failure (output_violation proc) description)).
Proof.
  intros proc toolName params props HtoolName Hcred [args ->] Hcall.
  assert (Hrun : forall a,
             Trading.getUserBalance proc a =
               ([new_hollaex (client_options proc); client_call "getBalance" []],
                inr (formatResponse "Fetched user balances." (JObj props))))
    by (intros a; apply balance_handler_resolved; assumption).
  assert (Hinvoke :
            invoke proc (Trading.buildServer proc) toolName (JObj args) =
              match safeParse balanceOutputSchema (JObj props) with
              | inl issues =>
                  ([new_hollaex (client_options proc);
                    client_call "getBalance" []],
                   Failure (output_violation proc)
                     (violations (Number_toString proc) issues))
              | inr _ =>
                  ([new_hollaex (client_options proc);
                    client_call "getBalance" []],
                   Success (formatResponse "Fetched user balances."
                              (JObj props)))
              end).
  { destruct HtoolName as [<- | [<- | []]];
      unfold invoke, Trading.buildServer; rewrite !tools_registerTool;
      cbn [new_McpServer tools app find_tool name String.eqb Ascii.eqb
           Bool.eqb inputSchema outputSchema handler];
      change (parse_args (z.object []) (JObj args))
        with (@inr (list Issue) Args []);
      cbv beta iota;
      change (Trading.getBalance proc []) with (Trading.getUserBalance proc []);
      rewrite (Hrun []); cbn [structuredContent formatResponse];
      reflexivity. }
  rewrite Hinvoke. split.
  - intros Hnumbers. destruct (balances_of_numbers props Hnumbers) as [out ->].
    reflexivity.
  - intros k v Hk Hnot Hdef.
    destruct (balance_not_a_number props k v Hk Hnot Hdef) as [issues ->].
    eexists. reflexivity.
Qed.

Lemma balances_must_be_numbers_witness :
  In "getUserBalance" ["getUserBalance"; "getBalance"] /\
  credentials_missing (sample_process (Some "key") (Some "secret")
                         (JObj dated_balance)) = false /\
  assoc "updated_at" dated_balance = Some (JStr "2020-03-23T04:30:52.515Z") /\
  exists description,
    snd (invoke (sample_process (Some "key") (Some "secret") (JObj dated_balance))
           (Trading.buildServer
              (sample_process (Some "key") (Some "secret") (JObj dated_balance)))
           "getUserBalance" (JObj []))
    = Failure InternalError description.
Proof.
  split; [left; reflexivity |]. split; [reflexivity |]. split; [reflexivity |].
  destruct (balances_must_be_numbers
              (sample_process (Some "key") (Some "secret") (JObj dated_balance))
              "getUserBalance" (JObj []) dated_balance
              (or_introl eq_refl) eq_refl (ex_intro _ [] eq_refl) eq_refl)
    as [_ Hfails].
  destruct (Hfails "updated_at" (JStr "2020-03-23T04:30:52.515Z") eq_refl)
    as [description Hrun]; [discriminate | discriminate |].
  exists description. rewrite Hrun. reflexivity.
Defined.
